(** * Zetta protocol: frame codec and byte-wise receive state machine

    A shallow embedding of [Core/inc/zetta_protocol.h] and
    [Core/src/zetta_protocol.c] and the properties of the frame codec.

    Conventions of the embedding.
    - [uint8_t], [uint16_t] and [uint32_t] values are integers of [Z];
      every narrowing store and every increment writes its wrap-around out.
    - Arrays are lists; an access outside an array is C undefined behaviour
      and gives the outcome [Undefined].
    - The two busy-wait loops run on fuel; a loop that is still spinning when
      the fuel is gone gives the outcome [Spin].
    - The file-scope variables [tx_buf], [buf_tx_size] and [dbg_crc_val] live
      in the record [World], next to the log of the calls made through the
      function pointers [interface.send] and [interface.OnError]. *)

From stdpp Require Import base numbers list.

Local Open Scope Z_scope.

(** ** Outcomes of a call *)

Inductive outcome (A : Type) : Type :=
| Ret (a : A)
| Spin
| Undefined.

Arguments Ret {A} a.
Arguments Spin {A}.
Arguments Undefined {A}.

Definition bind {A B : Type} (m : outcome A) (k : A → outcome B) : outcome B :=
  match m with
  | Ret a => k a
  | Spin => Spin
  | Undefined => Undefined
  end.

Notation "'do' x <- m ;; k" := (bind m (λ x, k))
  (at level 10, x name, m at level 99, k at level 200).
Notation "'do' ' p <- m ;; k" := (bind m (λ x, match x with p => k end))
  (at level 10, p pattern, m at level 99, k at level 200).

(** ** Constants of zetta_protocol.h *)

Definition START_BYTE : Z := 0xAA.
Definition STOP_BYTE : Z := 0xBC.
Definition MAX_PAYLOAD_SIZE : Z := 25.

(** [sizeof(ZettaFrame_t)] for the packed record: start, type, len,
    payload[MAX_PAYLOAD_SIZE], crc, stop. *)
Definition MAX_ZETTA_FRAME_SIZE : Z := 1 + 1 + 1 + MAX_PAYLOAD_SIZE + 1 + 1.

Definition wrap8 (z : Z) : Z := z mod 2 ^ 8.
Definition wrap16 (z : Z) : Z := z mod 2 ^ 16.
Definition wrap32 (z : Z) : Z := z mod 2 ^ 32.

(** ** Enumerations *)

(** [ZettaPacketType_t] is a packed enumeration, one byte wide; any byte can
    travel in it, so it is kept as an integer. *)
Definition ZettaPacketType_t : Type := Z.
Definition MSG_ACK : ZettaPacketType_t := 0.
Definition MSG_PUBLISH : ZettaPacketType_t := 1.
Definition MSG_SUBSCRIBE : ZettaPacketType_t := 2.

(** [ZettaFrameRxState_t].  The field that holds it is an integer, so that
    the [default] branch of the parser's [switch] has a meaning. *)
Definition ZettaFrameRxState_t : Type := Z.
Definition STATE_RX_WAIT_START : ZettaFrameRxState_t := 0.
Definition STATE_RX_GET_TYPE : ZettaFrameRxState_t := 1.
Definition STATE_RX_GET_LEN : ZettaFrameRxState_t := 2.
Definition STATE_RX_GET_PAYLOAD : ZettaFrameRxState_t := 3.
Definition STATE_RX_GET_CRC : ZettaFrameRxState_t := 4.
Definition STATE_RX_GET_STOP : ZettaFrameRxState_t := 5.

Inductive ZettaError_t : Set :=
| ZETTA_ERROR
| ZETTA_OK
| ZETTA_ERROR_TYPE
| ZETTA_FRAME_ERROR
| ZETTA_ERROR_INVALID_START
| ZETTA_ERROR_PAYLOAD_TOO_LARGE
| ZETTA_ERROR_CRC_MISMATCH
| ZETTA_ERROR_INVALID_STOP
| ZETTA_ERROR_TIMEOUT
| ZETTA_ERROR_TX_BUSY
| ZETTA_ERROR_RX_BUSY.

(** The integer value of an enumerator, as C numbers them. *)
Definition ZettaError_val (e : ZettaError_t) : Z :=
  match e with
  | ZETTA_ERROR => 0
  | ZETTA_OK => 1
  | ZETTA_ERROR_TYPE => 2
  | ZETTA_FRAME_ERROR => 3
  | ZETTA_ERROR_INVALID_START => 4
  | ZETTA_ERROR_PAYLOAD_TOO_LARGE => 5
  | ZETTA_ERROR_CRC_MISMATCH => 6
  | ZETTA_ERROR_INVALID_STOP => 7
  | ZETTA_ERROR_TIMEOUT => 8
  | ZETTA_ERROR_TX_BUSY => 9
  | ZETTA_ERROR_RX_BUSY => 10
  end.

Inductive ZettaProtocolState_t : Set :=
| ZETTA_STATE_TX_BUSY
| ZETTA_STATE_TX_READY
| ZETTA_STATE_RX_READY
| ZETTA_STATE_RX_BUSY.

#[global] Instance ZettaError_eq_dec : EqDecision ZettaError_t.
Proof. solve_decision. Defined.

#[global] Instance ZettaProtocolState_eq_dec : EqDecision ZettaProtocolState_t.
Proof. solve_decision. Defined.

(** ** Records *)

Record ZettaFrame_t : Type := mkFrame {
  start : Z;
  type : Z;
  len : Z;
  payload : list Z;
  crc : Z;
  stop : Z
}.

Record Internal_t : Type := mkInternal {
  pstate : ZettaProtocolState_t;
  index : Z;
  frame : ZettaFrame_t;
  last_byte_time : Z;
  error : ZettaError_t;
  rx_frame_state : ZettaFrameRxState_t;
  payload_ready : Z
}.

(** Function pointers.  The transport functions are named by a number; the
    checksum function is the function from the bytes it is handed to the
    value it returns; a completion callback is null, one of the two of the
    library, or a caller's; an error handler is null, the library's, or a
    caller's, which may rewrite the internal state. *)
Definition ZettaTransmit : Type := nat.
Definition ZettaRecieve : Type := nat.
Definition ZettaComputeCRC : Type := list Z → Z.

Inductive ZettaCpltClbk : Type :=
| Clbk_NULL
| Clbk_zetta_recieve_cplt_clb
| Clbk_zetta_transmit_cplt_clb
| Clbk_user (id : nat).

Inductive HandleError : Type :=
| OnError_NULL
| OnError_zetta_error_manager
| OnError_user (handler : Internal_t → ZettaError_t → Internal_t).

Record ZettaInterface_t : Type := mkInterface {
  send : ZettaTransmit;
  receive : ZettaRecieve;
  computeCRC : ZettaComputeCRC;
  rxCpltClbk : ZettaCpltClbk;
  txCpltClbk : ZettaCpltClbk;
  OnError : HandleError
}.

Record Zetta_t : Type := mkZetta {
  interface : ZettaInterface_t;
  _internal : Internal_t
}.

(** Calls that leave the library through a function pointer. *)
Inductive event : Type :=
| EvSend (f : ZettaTransmit) (data : list Z) (size : Z)
| EvOnError (e : ZettaError_t).

Record World : Type := mkWorld {
  tx_buf : list Z;
  buf_tx_size : Z;
  dbg_crc_val : Z;
  calls : list event
}.

(** ** Field updates *)

Definition set_start (v : Z) (f : ZettaFrame_t) : ZettaFrame_t :=
  mkFrame v (type f) (len f) (payload f) (crc f) (stop f).
Definition set_type (v : Z) (f : ZettaFrame_t) : ZettaFrame_t :=
  mkFrame (start f) v (len f) (payload f) (crc f) (stop f).
Definition set_len (v : Z) (f : ZettaFrame_t) : ZettaFrame_t :=
  mkFrame (start f) (type f) v (payload f) (crc f) (stop f).
Definition set_payload (v : list Z) (f : ZettaFrame_t) : ZettaFrame_t :=
  mkFrame (start f) (type f) (len f) v (crc f) (stop f).
Definition set_crc (v : Z) (f : ZettaFrame_t) : ZettaFrame_t :=
  mkFrame (start f) (type f) (len f) (payload f) v (stop f).
Definition set_stop (v : Z) (f : ZettaFrame_t) : ZettaFrame_t :=
  mkFrame (start f) (type f) (len f) (payload f) (crc f) v.

Definition set_pstate (v : ZettaProtocolState_t) (i : Internal_t) : Internal_t :=
  mkInternal v (index i) (frame i) (last_byte_time i) (error i)
             (rx_frame_state i) (payload_ready i).
Definition set_index (v : Z) (i : Internal_t) : Internal_t :=
  mkInternal (pstate i) v (frame i) (last_byte_time i) (error i)
             (rx_frame_state i) (payload_ready i).
Definition set_frame (v : ZettaFrame_t) (i : Internal_t) : Internal_t :=
  mkInternal (pstate i) (index i) v (last_byte_time i) (error i)
             (rx_frame_state i) (payload_ready i).
Definition set_error (v : ZettaError_t) (i : Internal_t) : Internal_t :=
  mkInternal (pstate i) (index i) (frame i) (last_byte_time i) v
             (rx_frame_state i) (payload_ready i).
Definition set_rx_frame_state (v : ZettaFrameRxState_t) (i : Internal_t) : Internal_t :=
  mkInternal (pstate i) (index i) (frame i) (last_byte_time i) (error i)
             v (payload_ready i).
Definition set_payload_ready (v : Z) (i : Internal_t) : Internal_t :=
  mkInternal (pstate i) (index i) (frame i) (last_byte_time i) (error i)
             (rx_frame_state i) v.

(** [packet->_internal = f(packet->_internal)] and
    [packet->_internal.frame = g(packet->_internal.frame)]. *)
Definition upd (f : Internal_t → Internal_t) (packet : Zetta_t) : Zetta_t :=
  mkZetta (interface packet) (f (_internal packet)).
Definition upd_frame (g : ZettaFrame_t → ZettaFrame_t) (packet : Zetta_t) : Zetta_t :=
  upd (λ i, set_frame (g (frame i)) i) packet.

Definition set_tx_buf (v : list Z) (w : World) : World :=
  mkWorld v (buf_tx_size w) (dbg_crc_val w) (calls w).
Definition set_buf_tx_size (v : Z) (w : World) : World :=
  mkWorld (tx_buf w) v (dbg_crc_val w) (calls w).
Definition set_dbg_crc_val (v : Z) (w : World) : World :=
  mkWorld (tx_buf w) (buf_tx_size w) v (calls w).
Definition log (e : event) (w : World) : World :=
  mkWorld (tx_buf w) (buf_tx_size w) (dbg_crc_val w) (calls w ++ [e]).

(** ** Memory helpers *)

(** [memset(buf, c, n)]. *)
Definition memset (buf : list Z) (c : Z) (n : nat) : list Z :=
  replicate n c ++ drop n buf.

(** [memcpy(&dst[off], src, n)]: undefined when [n] bytes cannot be read from
    [src] or cannot be written at [dst + off]. *)
Definition memcpy (dst : list Z) (off : nat) (src : list Z) (n : nat)
  : outcome (list Z) :=
  if bool_decide (n ≤ length src ∧ off + n ≤ length dst)%nat
  then Ret (take off dst ++ take n src ++ drop (off + n) dst)
  else Undefined.

(** [arr[i] = v] on an array: undefined outside the array. *)
Definition store (arr : list Z) (i : Z) (v : Z) : outcome (list Z) :=
  if bool_decide (0 ≤ i < Z.of_nat (length arr))
  then Ret (<[Z.to_nat i := v]> arr)
  else Undefined.

(** ** The library *)

(** The state [memset(packet, 0, sizeof(Zetta_t))] leaves in [_internal]:
    every enumeration holds its enumerator of value 0. *)
Definition zero_frame : ZettaFrame_t :=
  mkFrame 0 0 0 (replicate (Z.to_nat MAX_PAYLOAD_SIZE) 0) 0 0.
Definition zero_internal : Internal_t :=
  mkInternal ZETTA_STATE_TX_BUSY 0 zero_frame 0 ZETTA_ERROR STATE_RX_WAIT_START 0.

(** [zetta_init].  The [memset] wipes whatever [packet] held, and the
    interface is then assigned whole, so only [_internal] shows the zeroes.
    The last three assignments are unconditional. *)
Definition zetta_init (packet : Zetta_t) (interface : ZettaInterface_t) : Zetta_t :=
  let i := zero_internal in
  let i := set_pstate ZETTA_STATE_RX_READY i in
  let i := set_payload_ready 0 i in
  let i := set_error ZETTA_OK i in
  let itf := interface in
  let itf := mkInterface (send itf) (receive itf) (computeCRC itf)
                         Clbk_zetta_recieve_cplt_clb (txCpltClbk itf) (OnError itf) in
  let itf := mkInterface (send itf) (receive itf) (computeCRC itf)
                         (rxCpltClbk itf) Clbk_zetta_transmit_cplt_clb (OnError itf) in
  let itf := mkInterface (send itf) (receive itf) (computeCRC itf)
                         (rxCpltClbk itf) (txCpltClbk itf) OnError_zetta_error_manager in
  mkZetta itf i.

(** [zetta_compute_crc]: the checksum function is handed the [1 + 1 + len]
    bytes that start at [frame.type] in the packed frame; its result is also
    left in [dbg_crc_val].  A span that runs past the payload array is
    undefined. *)
Definition zetta_compute_crc (w : World) (packet : Zetta_t) : outcome (World * Z) :=
  let f := frame (_internal packet) in
  let data_bytes := wrap32 (1 + 1 + len f) in
  if bool_decide (0 ≤ len f ≤ Z.of_nat (length (payload f))) then
    let data := take (Z.to_nat data_bytes) (type f :: len f :: payload f) in
    let crc := wrap32 (computeCRC (interface packet) data) in
    Ret (set_dbg_crc_val crc w, crc)
  else Undefined.

(** [zetta_error_manager]: the receive state is reset whatever the error;
    the [switch] that follows only prints, for ZETTA_ERROR. *)
Definition zetta_error_manager (packet : Zetta_t) (error : ZettaError_t) : Zetta_t :=
  upd (set_rx_frame_state STATE_RX_WAIT_START) packet.

Definition zetta_recieve_cplt_clb (packet : Zetta_t) : Zetta_t :=
  upd (set_pstate ZETTA_STATE_RX_READY) packet.

Definition zetta_transmit_cplt_clb (packet : Zetta_t) : Zetta_t :=
  upd (set_pstate ZETTA_STATE_TX_READY) packet.

(** [packet->interface.OnError(packet, error)]. *)
Definition call_OnError (w : World) (packet : Zetta_t) (error : ZettaError_t)
  : outcome (World * Zetta_t) :=
  match OnError (interface packet) with
  | OnError_NULL => Undefined
  | OnError_zetta_error_manager =>
      Ret (log (EvOnError error) w, zetta_error_manager packet error)
  | OnError_user handler =>
      Ret (log (EvOnError error) w, upd (λ i, handler i error) packet)
  end.

(** [while (packet->_internal.pstate == busy) {}]: [true] when the loop is
    left within [fuel] evaluations of its condition. *)
Fixpoint gate_wait (fuel : nat) (busy : ZettaProtocolState_t) (packet : Zetta_t) : bool :=
  match fuel with
  | O => false
  | S fuel' =>
      if bool_decide (pstate (_internal packet) = busy)
      then gate_wait fuel' busy packet
      else true
  end.

(** [tx_buf[buf_tx_size++] = b].  In [zetta_send] the index is below
    [MAX_ZETTA_FRAME_SIZE] at each of the five places. *)
Definition tx_push (b : Z) (w : World) : World :=
  set_buf_tx_size (wrap16 (buf_tx_size w + 1))
    (set_tx_buf (<[Z.to_nat (buf_tx_size w) := b]> (tx_buf w)) w).

Definition zetta_send (fuel : nat) (w : World) (packet : Zetta_t)
    (type : ZettaPacketType_t) (pData : list Z) (len : Z)
  : outcome (World * Zetta_t * ZettaError_t) :=
  if gate_wait fuel ZETTA_STATE_TX_BUSY packet then
    if len >? MAX_PAYLOAD_SIZE then
      do '(w, packet) <- call_OnError w packet ZETTA_ERROR_PAYLOAD_TOO_LARGE ;;
      Ret (w, packet, ZETTA_ERROR_PAYLOAD_TOO_LARGE)
    else
      let w := set_buf_tx_size 0 w in
      let w := set_tx_buf (memset (tx_buf w) 0 30) w in
      let packet := upd (set_pstate ZETTA_STATE_TX_BUSY) packet in
      let w := tx_push START_BYTE w in
      let w := tx_push type w in
      let w := tx_push len w in
      do buf <- memcpy (tx_buf w) (Z.to_nat (buf_tx_size w)) pData (Z.to_nat len) ;;
      let w := set_tx_buf buf w in
      let w := set_buf_tx_size (wrap16 (buf_tx_size w + len)) w in
      let packet := upd_frame (set_type type) packet in
      let packet := upd_frame (set_len len) packet in
      do pl <- memcpy (payload (frame (_internal packet))) 0 pData (Z.to_nat len) ;;
      let packet := upd_frame (set_payload pl) packet in
      do '(w, crc_val) <- zetta_compute_crc w packet ;;
      let packet := upd_frame (set_crc (wrap8 crc_val)) packet in
      let w := tx_push (crc (frame (_internal packet))) w in
      let w := tx_push STOP_BYTE w in
      let w := log (EvSend (send (interface packet)) (tx_buf w)
                           (wrap8 (buf_tx_size w))) w in
      Ret (w, packet, ZETTA_OK)
  else Spin.

(** [zetta_check_type] accepts every byte. *)
Definition zetta_check_type (byte : Z) : ZettaError_t := ZETTA_OK.

Definition zetta_ParseByte (fuel : nat) (w : World) (packet : Zetta_t) (byte : Z)
  : outcome (World * Zetta_t * ZettaError_t) :=
  if gate_wait fuel ZETTA_STATE_RX_BUSY packet then
    let st := rx_frame_state (_internal packet) in
    if st =? STATE_RX_WAIT_START then
      if byte =? START_BYTE then
        let packet := upd (set_rx_frame_state STATE_RX_GET_TYPE) packet in
        let packet := upd_frame (set_start START_BYTE) packet in
        let packet := upd (set_index 0) packet in
        Ret (w, packet, ZETTA_ERROR)
      else
        let packet := upd (set_error ZETTA_ERROR_INVALID_START) packet in
        do '(w, packet) <- call_OnError w packet ZETTA_ERROR_INVALID_START ;;
        Ret (w, packet, ZETTA_ERROR)
    else if st =? STATE_RX_GET_TYPE then
      if negb (ZettaError_val (zetta_check_type byte) =? 0) then
        let packet := upd_frame (set_type byte) packet in
        let packet := upd (set_rx_frame_state STATE_RX_GET_LEN) packet in
        Ret (w, packet, ZETTA_ERROR)
      else
        let packet := upd (set_error ZETTA_ERROR_TYPE) packet in
        do '(w, packet) <- call_OnError w packet ZETTA_ERROR_TYPE ;;
        Ret (w, packet, ZETTA_ERROR)
    else if st =? STATE_RX_GET_LEN then
      if byte <=? MAX_PAYLOAD_SIZE then
        let packet := upd_frame (set_len byte) packet in
        let packet :=
          upd (set_rx_frame_state
                 (if byte =? 0 then STATE_RX_GET_CRC else STATE_RX_GET_PAYLOAD))
              packet in
        Ret (w, packet, ZETTA_ERROR)
      else
        let packet := upd (set_error ZETTA_ERROR_PAYLOAD_TOO_LARGE) packet in
        do '(w, packet) <- call_OnError w packet ZETTA_ERROR_PAYLOAD_TOO_LARGE ;;
        Ret (w, packet, ZETTA_ERROR)
    else if st =? STATE_RX_GET_PAYLOAD then
      do pl <- store (payload (frame (_internal packet)))
                  (index (_internal packet)) byte ;;
      let packet := upd_frame (set_payload pl) packet in
      let packet := upd (set_index (wrap8 (index (_internal packet) + 1))) packet in
      let packet :=
        if index (_internal packet) >=? len (frame (_internal packet))
        then upd (set_rx_frame_state STATE_RX_GET_CRC) packet
        else packet in
      Ret (w, packet, ZETTA_ERROR)
    else if st =? STATE_RX_GET_CRC then
      let packet := upd_frame (set_crc byte) packet in
      let packet := upd (set_rx_frame_state STATE_RX_GET_STOP) packet in
      Ret (w, packet, ZETTA_ERROR)
    else if st =? STATE_RX_GET_STOP then
      if byte =? STOP_BYTE then
        let packet := upd (set_rx_frame_state STATE_RX_WAIT_START) packet in
        let packet := upd_frame (set_stop STOP_BYTE) packet in
        do '(w, crc_val) <- zetta_compute_crc w packet ;;
        if crc_val =? crc (frame (_internal packet)) then
          let packet := upd (set_payload_ready 1) packet in
          let packet := upd (set_rx_frame_state STATE_RX_WAIT_START) packet in
          Ret (w, packet, ZETTA_OK)
        else
          let packet := upd (set_error ZETTA_ERROR_CRC_MISMATCH) packet in
          do '(w, packet) <- call_OnError w packet ZETTA_ERROR_CRC_MISMATCH ;;
          Ret (w, packet, ZETTA_ERROR)
      else
        let packet := upd (set_error ZETTA_ERROR_INVALID_STOP) packet in
        do '(w, packet) <- call_OnError w packet ZETTA_ERROR_INVALID_STOP ;;
        Ret (w, packet, ZETTA_ERROR)
    else
      let packet := upd (set_error ZETTA_FRAME_ERROR) packet in
      do '(w, packet) <- call_OnError w packet ZETTA_FRAME_ERROR ;;
      Ret (w, packet, ZETTA_ERROR)
  else Spin.

(** [Zetta_GetPayload]: the destination buffer after the call. *)
Definition Zetta_GetPayload (hzetta : Zetta_t) (pDest : list Z) : outcome (list Z) :=
  if negb (payload_ready (_internal hzetta) =? 0) then
    memcpy pDest 0 (payload (frame (_internal hzetta)))
           (Z.to_nat (len (frame (_internal hzetta))))
  else Ret pDest.

Definition Zetta_GetType (hzetta : Zetta_t) : ZettaPacketType_t :=
  if negb (payload_ready (_internal hzetta) =? 0) then
    type (frame (_internal hzetta))
  else MSG_ACK.

(** ** Drivers *)

(** One [zetta_ParseByte] call per byte, in order, as a receive interrupt
    makes them; the result codes are collected. *)
Fixpoint feed_bytes (fuel : nat) (w : World) (packet : Zetta_t) (bytes : list Z)
  : outcome (World * Zetta_t * list ZettaError_t) :=
  match bytes with
  | [] => Ret (w, packet, [])
  | b :: bs =>
      do '(w, packet, r) <- zetta_ParseByte fuel w packet b ;;
      do '(w, packet, rs) <- feed_bytes fuel w packet bs ;;
      Ret (w, packet, r :: rs)
  end.

(** The bytes a logged transport call was handed: the first [size] bytes of
    the buffer. *)
Definition sent_bytes (e : event) : list Z :=
  match e with
  | EvSend _ data size => take (Z.to_nat size) data
  | EvOnError _ => []
  end.

(** Two checksum functions to run the code on: the exclusive-or checksum of
    the comment in [zetta_compute_crc], and a plain sum. *)
Definition xor_crc (data : list Z) : Z := foldr Z.lxor 0 data.
Definition sum_crc (data : list Z) : Z := foldr Z.add 0 data.

Definition empty_world : World := mkWorld (replicate 30 0) 0 0 [].
Definition blank : Zetta_t :=
  mkZetta (mkInterface 0%nat 0%nat (λ _, 0) Clbk_NULL Clbk_NULL OnError_NULL) zero_internal.
Definition iface (f : ZettaComputeCRC) : ZettaInterface_t :=
  mkInterface 1%nat 2%nat f Clbk_NULL Clbk_NULL OnError_NULL.

(** ** The receive state machine as a step relation *)

(** The same transitions as a step relation: [rx_step w packet byte w'
    packet' r] holds when the [switch] of [zetta_ParseByte], entered with
    [w] and [packet] on [byte], leaves [w'] and [packet'] and returns [r]. *)
Inductive rx_step (w : World) (packet : Zetta_t) (byte : Z)
  : World → Zetta_t → ZettaError_t → Prop :=
| step_start :
    rx_frame_state (_internal packet) = STATE_RX_WAIT_START →
    byte = START_BYTE →
    rx_step w packet byte w
      (upd (set_index 0)
         (upd_frame (set_start START_BYTE)
            (upd (set_rx_frame_state STATE_RX_GET_TYPE) packet)))
      ZETTA_ERROR
| step_invalid_start w' packet' :
    rx_frame_state (_internal packet) = STATE_RX_WAIT_START →
    byte ≠ START_BYTE →
    call_OnError w (upd (set_error ZETTA_ERROR_INVALID_START) packet)
                 ZETTA_ERROR_INVALID_START = Ret (w', packet') →
    rx_step w packet byte w' packet' ZETTA_ERROR
| step_type :
    rx_frame_state (_internal packet) = STATE_RX_GET_TYPE →
    rx_step w packet byte w
      (upd (set_rx_frame_state STATE_RX_GET_LEN)
         (upd_frame (set_type byte) packet))
      ZETTA_ERROR
| step_len :
    rx_frame_state (_internal packet) = STATE_RX_GET_LEN →
    byte ≤ MAX_PAYLOAD_SIZE →
    rx_step w packet byte w
      (upd (set_rx_frame_state
              (if byte =? 0 then STATE_RX_GET_CRC else STATE_RX_GET_PAYLOAD))
         (upd_frame (set_len byte) packet))
      ZETTA_ERROR
| step_payload_too_large w' packet' :
    rx_frame_state (_internal packet) = STATE_RX_GET_LEN →
    byte > MAX_PAYLOAD_SIZE →
    call_OnError w (upd (set_error ZETTA_ERROR_PAYLOAD_TOO_LARGE) packet)
                 ZETTA_ERROR_PAYLOAD_TOO_LARGE = Ret (w', packet') →
    rx_step w packet byte w' packet' ZETTA_ERROR
| step_payload pl :
    rx_frame_state (_internal packet) = STATE_RX_GET_PAYLOAD →
    store (payload (frame (_internal packet)))
          (index (_internal packet)) byte = Ret pl →
    let next := wrap8 (index (_internal packet) + 1) in
    let packet1 := upd (set_index next) (upd_frame (set_payload pl) packet) in
    rx_step w packet byte w
      (if next >=? len (frame (_internal packet))
       then upd (set_rx_frame_state STATE_RX_GET_CRC) packet1
       else packet1)
      ZETTA_ERROR
| step_crc :
    rx_frame_state (_internal packet) = STATE_RX_GET_CRC →
    rx_step w packet byte w
      (upd (set_rx_frame_state STATE_RX_GET_STOP)
         (upd_frame (set_crc byte) packet))
      ZETTA_ERROR
| step_complete w' crc_val :
    rx_frame_state (_internal packet) = STATE_RX_GET_STOP →
    byte = STOP_BYTE →
    let packet1 := upd_frame (set_stop STOP_BYTE)
                     (upd (set_rx_frame_state STATE_RX_WAIT_START) packet) in
    zetta_compute_crc w packet1 = Ret (w', crc_val) →
    crc_val = crc (frame (_internal packet)) →
    rx_step w packet byte w'
      (upd (set_rx_frame_state STATE_RX_WAIT_START)
         (upd (set_payload_ready 1) packet1))
      ZETTA_OK
| step_crc_mismatch w1 crc_val w' packet' :
    rx_frame_state (_internal packet) = STATE_RX_GET_STOP →
    byte = STOP_BYTE →
    let packet1 := upd_frame (set_stop STOP_BYTE)
                     (upd (set_rx_frame_state STATE_RX_WAIT_START) packet) in
    zetta_compute_crc w packet1 = Ret (w1, crc_val) →
    crc_val ≠ crc (frame (_internal packet)) →
    call_OnError w1 (upd (set_error ZETTA_ERROR_CRC_MISMATCH) packet1)
                 ZETTA_ERROR_CRC_MISMATCH = Ret (w', packet') →
    rx_step w packet byte w' packet' ZETTA_ERROR
| step_invalid_stop w' packet' :
    rx_frame_state (_internal packet) = STATE_RX_GET_STOP →
    byte ≠ STOP_BYTE →
    call_OnError w (upd (set_error ZETTA_ERROR_INVALID_STOP) packet)
                 ZETTA_ERROR_INVALID_STOP = Ret (w', packet') →
    rx_step w packet byte w' packet' ZETTA_ERROR
| step_frame_error w' packet' :
    rx_frame_state (_internal packet) < STATE_RX_WAIT_START
    ∨ STATE_RX_GET_STOP < rx_frame_state (_internal packet) →
    call_OnError w (upd (set_error ZETTA_FRAME_ERROR) packet)
                 ZETTA_FRAME_ERROR = Ret (w', packet') →
    rx_step w packet byte w' packet' ZETTA_ERROR.

(** ** Sample instances *)

(** Instances to run the code on. *)
Definition user_iface : ZettaInterface_t :=
  mkInterface 1%nat 2%nat xor_crc (Clbk_user 7) (Clbk_user 8)
              (OnError_user (λ i _, i)).

Definition rx_busy_instance : Zetta_t :=
  upd (set_pstate ZETTA_STATE_RX_BUSY) (zetta_init blank (iface xor_crc)).

Definition tx_busy_instance : Zetta_t :=
  upd (set_pstate ZETTA_STATE_TX_BUSY) (zetta_init blank (iface xor_crc)).

(** The instance that has taken the start byte. *)
Definition get_type_instance : Zetta_t :=
  upd (set_rx_frame_state STATE_RX_GET_TYPE)
      (upd_frame (set_start START_BYTE) (zetta_init blank (iface xor_crc))).

(** The instance that has taken the start byte and a type byte. *)
Definition get_len_instance : Zetta_t :=
  upd (set_rx_frame_state STATE_RX_GET_LEN)
      (upd_frame (set_type MSG_PUBLISH)
         (upd_frame (set_start START_BYTE) (zetta_init blank (iface xor_crc)))).

(** ** Frames on the wire *)

(** The byte sequence of a frame: start, type, length, payload, checksum
    byte, stop. *)
Definition wire_frame (ty : Z) (pl : list Z) (c : Z) : list Z :=
  [START_BYTE; ty; Z.of_nat (length pl)] ++ pl ++ [c; STOP_BYTE].

(** The instance once the bytes [bytes] have been stored from payload index
    [i] on and the payload is full. *)
Definition payload_received (i : nat) (bytes : list Z) (packet : Zetta_t) : Zetta_t :=
  let pl := payload (frame (_internal packet)) in
  upd (set_rx_frame_state STATE_RX_GET_CRC)
    (upd (set_index (Z.of_nat (i + length bytes)))
       (upd_frame
          (set_payload (take i pl ++ bytes ++ drop (i + length bytes) pl))
          packet)).

(** The instance once the start byte, the type [ty], the length, the payload
    [pl] and the checksum byte [c] of a frame have been taken: the machine
    waits for the stop byte. *)
Definition frame_body_received (ty : Z) (pl : list Z) (c : Z) (packet : Zetta_t)
  : Zetta_t :=
  let i := _internal packet in
  mkZetta (interface packet)
    (mkInternal (pstate i) (Z.of_nat (length pl))
       (mkFrame START_BYTE ty (Z.of_nat (length pl))
          (pl ++ drop (length pl) (payload (frame i))) c (stop (frame i)))
       (last_byte_time i) (error i) STATE_RX_GET_STOP (payload_ready i)).

(** The instance once the stop byte has followed and the frame was found
    intact, and the instance once it was found corrupt by the library's
    error handler. *)
Definition frame_received (ty : Z) (pl : list Z) (c : Z) (packet : Zetta_t) : Zetta_t :=
  upd (set_rx_frame_state STATE_RX_WAIT_START)
    (upd (set_payload_ready 1)
       (upd_frame (set_stop STOP_BYTE) (frame_body_received ty pl c packet))).

Definition frame_rejected (ty : Z) (pl : list Z) (c : Z) (packet : Zetta_t) : Zetta_t :=
  upd (set_rx_frame_state STATE_RX_WAIT_START)
    (upd (set_error ZETTA_ERROR_CRC_MISMATCH)
       (upd_frame (set_stop STOP_BYTE) (frame_body_received ty pl c packet))).

(** The checksum value the library obtains for a frame of type [ty] and
    payload [pl]: the injected function applied to type, length and payload,
    as a [uint32_t]. *)
Definition frame_crc (f : ZettaComputeCRC) (ty : Z) (pl : list Z) : Z :=
  wrap32 (f (ty :: Z.of_nat (length pl) :: pl)).

(** The file-scope variables and the call log once [zetta_send] has sent the
    frame of type [ty] and payload [pl] through the transport [f], with [v]
    the checksum value obtained. *)
Definition world_after_send (w : World) (f : ZettaTransmit) (ty : Z) (pl : list Z)
    (v : Z) : World :=
  let buf := wire_frame ty pl (wrap8 v)
             ++ replicate (25 - length pl) 0 ++ drop 30 (tx_buf w) in
  let size := Z.of_nat (length pl) + 5 in
  mkWorld buf size v (calls w ++ [EvSend f buf size]).

Definition instance_after_send (ty : Z) (pl : list Z) (v : Z) (packet : Zetta_t)
  : Zetta_t :=
  let pl0 := payload (frame (_internal packet)) in
  upd_frame (set_crc (wrap8 v))
    (upd_frame (set_payload (pl ++ drop (length pl) pl0))
       (upd_frame (set_len (Z.of_nat (length pl)))
          (upd_frame (set_type ty)
             (upd (set_pstate ZETTA_STATE_TX_BUSY) packet)))).

(** ** Histories of calls *)

(** The calls an application and its transport make on an instance: the two
    operations and the two completion callbacks. *)
Inductive api_call : Type :=
| call_send (ty : ZettaPacketType_t) (pData : list Z) (n : Z)
| call_ParseByte (byte : Z)
| call_recieve_cplt_clb
| call_transmit_cplt_clb.

Definition is_byte (z : Z) : Prop := 0 ≤ z < 256.

(** The [uint8_t] arguments of a call are bytes. *)
Definition well_typed (c : api_call) : Prop :=
  match c with
  | call_send ty pData n => is_byte ty ∧ is_byte n
  | call_ParseByte byte => is_byte byte
  | call_recieve_cplt_clb | call_transmit_cplt_clb => True
  end.

Definition run_call (fuel : nat) (w : World) (packet : Zetta_t) (c : api_call)
  : outcome (World * Zetta_t * ZettaError_t) :=
  match c with
  | call_send ty pData n => zetta_send fuel w packet ty pData n
  | call_ParseByte byte => zetta_ParseByte fuel w packet byte
  | call_recieve_cplt_clb => Ret (w, zetta_recieve_cplt_clb packet, ZETTA_OK)
  | call_transmit_cplt_clb => Ret (w, zetta_transmit_cplt_clb packet, ZETTA_OK)
  end.

(** The states an instance goes through from [zetta_init] on, one returning
    call after the other. *)
Inductive reachable : World → Zetta_t → Prop :=
| reach_init w packet itf : reachable w (zetta_init packet itf)
| reach_call w packet fuel c w' packet' r :
    reachable w packet →
    well_typed c →
    run_call fuel w packet c = Ret (w', packet', r) →
    reachable w' packet'.

(** What every reachable instance satisfies. *)
Definition invariant (packet : Zetta_t) : Prop :=
  let i := _internal packet in
  OnError (interface packet) = OnError_zetta_error_manager
  ∧ length (payload (frame i)) = Z.to_nat MAX_PAYLOAD_SIZE
  ∧ 0 ≤ len (frame i) ≤ MAX_PAYLOAD_SIZE
  ∧ pstate i ≠ ZETTA_STATE_RX_BUSY
  ∧ STATE_RX_WAIT_START ≤ rx_frame_state i ≤ STATE_RX_GET_STOP
  ∧ (rx_frame_state i = STATE_RX_GET_TYPE ∨ rx_frame_state i = STATE_RX_GET_LEN
     → index i = 0)
  ∧ (rx_frame_state i = STATE_RX_GET_PAYLOAD
     → 0 ≤ index i < MAX_PAYLOAD_SIZE).

(** The instances on which one [zetta_ParseByte] call stays clear of
    undefined behaviour: an error handler is installed, the payload index is
    inside the payload array while payload bytes are taken, and the stored
    length is inside it when the checksum is verified. *)
Definition well_formed (packet : Zetta_t) : Prop :=
  let i := _internal packet in
  OnError (interface packet) ≠ OnError_NULL
  ∧ (rx_frame_state i = STATE_RX_GET_PAYLOAD
     → 0 ≤ index i < Z.of_nat (length (payload (frame i))))
  ∧ (rx_frame_state i = STATE_RX_GET_STOP
     → 0 ≤ len (frame i) ≤ Z.of_nat (length (payload (frame i)))).

(** Two frames under the exclusive-or checksum: an intact one of type
    MSG_PUBLISH, and one of type MSG_SUBSCRIBE whose checksum byte is wrong
    (the checksum of 2, 2, 3, 4 is 7). *)
Definition intact_frame : list Z := [0xAA; 1; 2; 1; 2; 0; 0xBC].
Definition corrupt_frame : list Z := [0xAA; 2; 2; 3; 4; 0; 0xBC].

(** ** The batch feed *)

(** The loop of [zetta_ProcessBuffer], entered at index [i] with [remaining]
    iterations to go: [pData[i]] is fed, a completed frame ends the loop with
    ZETTA_OK, and the loop running out returns ZETTA_ERROR.  Reading past the
    buffer is undefined. *)
Fixpoint ProcessBuffer_from (fuel : nat) (w : World) (packet : Zetta_t)
    (pData : list Z) (i : nat) (remaining : nat)
  : outcome (World * Zetta_t * ZettaError_t) :=
  match remaining with
  | O => Ret (w, packet, ZETTA_ERROR)
  | S remaining' =>
      match pData !! i with
      | None => Undefined
      | Some byte =>
          do '(w, packet, r) <- zetta_ParseByte fuel w packet byte ;;
          if decide (r = ZETTA_OK) then Ret (w, packet, ZETTA_OK)
          else ProcessBuffer_from fuel w packet pData (S i) remaining'
      end
  end.

Definition zetta_ProcessBuffer (fuel : nat) (w : World) (packet : Zetta_t)
    (pData : list Z) (size : Z)
  : outcome (World * Zetta_t * ZettaError_t) :=
  ProcessBuffer_from fuel w packet pData 0 (Z.to_nat size).

(** ** The receive interrupt of the sample application *)

(** [sizeof(struct MetricPacket)], packed: a [uint32_t], a [float] and five
    bytes.  The object [metbj] is kept as its bytes. *)
Definition sizeof_MetricPacket : nat := 4 + 4 + 5.

(** [HAL_UART_RxCpltCallback] of the sample [main.c], on the instance
    [hzettarx], the byte [rx_byte] the transfer delivered and the object
    [metbj]: the byte is parsed, a completed frame's payload is copied over
    [metbj], and the receive-complete callback runs.  The call that re-arms
    the one-byte transfer belongs to the peripheral library; the byte it
    delivers is the argument of the next interrupt. *)
Definition HAL_UART_RxCpltCallback (fuel : nat) (w : World) (hzettarx : Zetta_t)
    (rx_byte : Z) (metbj : list Z)
  : outcome (World * Zetta_t * list Z) :=
  do '(w, hzettarx, r) <- zetta_ParseByte fuel w hzettarx rx_byte ;;
  do metbj <- (if decide (r = ZETTA_OK)
               then Zetta_GetPayload hzettarx metbj
               else Ret metbj) ;;
  Ret (w, zetta_recieve_cplt_clb hzettarx, metbj).

(** One interrupt per received byte. *)
Fixpoint rx_interrupts (fuel : nat) (w : World) (hzettarx : Zetta_t)
    (metbj : list Z) (bytes : list Z)
  : outcome (World * Zetta_t * list Z) :=
  match bytes with
  | [] => Ret (w, hzettarx, metbj)
  | b :: bs =>
      do '(w, hzettarx, metbj) <- HAL_UART_RxCpltCallback fuel w hzettarx b metbj ;;
      rx_interrupts fuel w hzettarx metbj bs
  end.

(** ** Receive errors *)

(** [res], the outcome of a [zetta_ParseByte] call entered with the call log
    of [w], is a return of ZETTA_ERROR after the error [e] was stored in the
    instance and handed to [interface.OnError], with the machine left in
    WAIT_START. *)
Definition rx_error_reported (res : outcome (World * Zetta_t * ZettaError_t))
    (w : World) (e : ZettaError_t) : Prop :=
  ∃ w' packet',
    res = Ret (w', packet', ZETTA_ERROR)
    ∧ calls w' = calls w ++ [EvOnError e]
    ∧ error (_internal packet') = e
    ∧ rx_frame_state (_internal packet') = STATE_RX_WAIT_START.

(** The instance that has taken AA 01 02 01 02 09 and waits for the stop
    byte; the exclusive-or checksum of 01 02 01 02 is 0, not 9. *)
Definition get_stop_instance : Zetta_t :=
  frame_body_received MSG_PUBLISH [1; 2] 9 (zetta_init blank (iface xor_crc)).

(** An instance whose receive state holds none of the six enumerators. *)
Definition stray_state_instance : Zetta_t :=
  upd (set_rx_frame_state 9) (zetta_init blank (iface xor_crc)).

(** ** Tactics *)

(** Unfolds the field updates and reduces the projections they meet. *)
Ltac fields :=
  cbn [upd upd_frame set_start set_type set_len set_payload set_crc set_stop
       set_pstate set_index set_frame set_error set_rx_frame_state
       set_payload_ready set_tx_buf set_buf_tx_size set_dbg_crc_val log
       zetta_error_manager zetta_recieve_cplt_clb zetta_transmit_cplt_clb
       interface _internal pstate index frame last_byte_time error
       rx_frame_state payload_ready start type len payload crc stop
       send receive computeCRC rxCpltClbk txCpltClbk OnError
       tx_buf buf_tx_size dbg_crc_val calls].

Tactic Notation "fields" "in" hyp(H) :=
  cbn [upd upd_frame set_start set_type set_len set_payload set_crc set_stop
       set_pstate set_index set_frame set_error set_rx_frame_state
       set_payload_ready set_tx_buf set_buf_tx_size set_dbg_crc_val log
       zetta_error_manager zetta_recieve_cplt_clb zetta_transmit_cplt_clb
       interface _internal pstate index frame last_byte_time error
       rx_frame_state payload_ready start type len payload crc stop
       send receive computeCRC rxCpltClbk txCpltClbk OnError
       tx_buf buf_tx_size dbg_crc_val calls] in H.

(** Unfolds the named constants, for linear arithmetic. *)
Ltac consts :=
  unfold STATE_RX_WAIT_START, STATE_RX_GET_TYPE, STATE_RX_GET_LEN,
    STATE_RX_GET_PAYLOAD, STATE_RX_GET_CRC, STATE_RX_GET_STOP,
    MAX_PAYLOAD_SIZE, START_BYTE, STOP_BYTE, is_byte in *.

(** * Properties *)

(** ** The gates *)

Lemma gate_wait_pass fuel busy packet :
  pstate (_internal packet) ≠ busy → gate_wait (S fuel) busy packet = true.
Proof. intros Hne. simpl. by rewrite bool_decide_eq_false_2. Qed.

Lemma gate_wait_spin fuel busy packet :
  pstate (_internal packet) = busy → gate_wait fuel busy packet = false.
Proof.
  intros Heq. induction fuel as [|fuel IH]; [done|].
  simpl. by rewrite bool_decide_eq_true_2.
Qed.

Lemma gate_wait_true fuel busy packet :
  gate_wait fuel busy packet = true →
  pstate (_internal packet) ≠ busy ∧ ∃ fuel', fuel = S fuel'.
Proof.
  intros Hg. split.
  - intros Heq. by rewrite (gate_wait_spin _ _ _ Heq) in Hg.
  - destruct fuel; [done | eauto].
Qed.

Lemma ParseByte_spin fuel w packet byte :
  pstate (_internal packet) = ZETTA_STATE_RX_BUSY →
  zetta_ParseByte fuel w packet byte = Spin.
Proof. intros Heq. unfold zetta_ParseByte. by rewrite gate_wait_spin. Qed.

Lemma send_spin fuel w packet ty pData n :
  pstate (_internal packet) = ZETTA_STATE_TX_BUSY →
  zetta_send fuel w packet ty pData n = Spin.
Proof. intros Heq. unfold zetta_send. by rewrite gate_wait_spin. Qed.

(** Past the gate the fuel plays no part: one evaluation of the loop
    condition is all a call makes. *)
Lemma ParseByte_fuel fuel w packet byte :
  pstate (_internal packet) ≠ ZETTA_STATE_RX_BUSY →
  zetta_ParseByte (S fuel) w packet byte = zetta_ParseByte 1 w packet byte.
Proof. intros Hne. unfold zetta_ParseByte. by rewrite !gate_wait_pass. Qed.

Lemma send_fuel fuel w packet ty pData n :
  pstate (_internal packet) ≠ ZETTA_STATE_TX_BUSY →
  zetta_send (S fuel) w packet ty pData n = zetta_send 1 w packet ty pData n.
Proof. intros Hne. unfold zetta_send. by rewrite !gate_wait_pass. Qed.

Lemma ParseByte_Ret_gate fuel w packet byte res :
  zetta_ParseByte fuel w packet byte = Ret res →
  pstate (_internal packet) ≠ ZETTA_STATE_RX_BUSY ∧ ∃ fuel', fuel = S fuel'.
Proof.
  unfold zetta_ParseByte. intros Hr. apply gate_wait_true.
  by destruct (gate_wait fuel ZETTA_STATE_RX_BUSY packet).
Qed.

Lemma send_Ret_gate fuel w packet ty pData n res :
  zetta_send fuel w packet ty pData n = Ret res →
  pstate (_internal packet) ≠ ZETTA_STATE_TX_BUSY ∧ ∃ fuel', fuel = S fuel'.
Proof.
  unfold zetta_send. intros Hr. apply gate_wait_true.
  by destruct (gate_wait fuel ZETTA_STATE_TX_BUSY packet).
Qed.

(** ** The receive state machine, one state at a time *)

Section Transitions.
Context (fuel : nat) (w : World) (packet : Zetta_t) (byte : Z).
Hypothesis gate : pstate (_internal packet) ≠ ZETTA_STATE_RX_BUSY.

Lemma ParseByte_WAIT_START_hit :
  rx_frame_state (_internal packet) = STATE_RX_WAIT_START → byte = START_BYTE →
  zetta_ParseByte (S fuel) w packet byte =
    Ret (w, upd (set_index 0)
              (upd_frame (set_start START_BYTE)
                 (upd (set_rx_frame_state STATE_RX_GET_TYPE) packet)),
         ZETTA_ERROR).
Proof.
  intros Hst ->. unfold zetta_ParseByte.
  rewrite gate_wait_pass by done. by rewrite Hst.
Qed.

Lemma ParseByte_WAIT_START_miss :
  rx_frame_state (_internal packet) = STATE_RX_WAIT_START → byte ≠ START_BYTE →
  zetta_ParseByte (S fuel) w packet byte =
    do '(w, packet) <- call_OnError w
           (upd (set_error ZETTA_ERROR_INVALID_START) packet)
           ZETTA_ERROR_INVALID_START ;;
    Ret (w, packet, ZETTA_ERROR).
Proof.
  intros Hst Hb. unfold zetta_ParseByte.
  rewrite gate_wait_pass by done. rewrite Hst.
  apply Z.eqb_neq in Hb. by rewrite Hb.
Qed.

Lemma ParseByte_GET_TYPE :
  rx_frame_state (_internal packet) = STATE_RX_GET_TYPE →
  zetta_ParseByte (S fuel) w packet byte =
    Ret (w, upd (set_rx_frame_state STATE_RX_GET_LEN)
              (upd_frame (set_type byte) packet),
         ZETTA_ERROR).
Proof.
  intros Hst. unfold zetta_ParseByte.
  rewrite gate_wait_pass by done. by rewrite Hst.
Qed.

Lemma ParseByte_GET_LEN_ok :
  rx_frame_state (_internal packet) = STATE_RX_GET_LEN → byte ≤ MAX_PAYLOAD_SIZE →
  zetta_ParseByte (S fuel) w packet byte =
    Ret (w, upd (set_rx_frame_state
                   (if byte =? 0 then STATE_RX_GET_CRC else STATE_RX_GET_PAYLOAD))
              (upd_frame (set_len byte) packet),
         ZETTA_ERROR).
Proof.
  intros Hst Hb. unfold zetta_ParseByte.
  rewrite gate_wait_pass by done. rewrite Hst.
  apply Z.leb_le in Hb. by rewrite Hb.
Qed.

Lemma ParseByte_GET_LEN_too_large :
  rx_frame_state (_internal packet) = STATE_RX_GET_LEN → byte > MAX_PAYLOAD_SIZE →
  zetta_ParseByte (S fuel) w packet byte =
    do '(w, packet) <- call_OnError w
           (upd (set_error ZETTA_ERROR_PAYLOAD_TOO_LARGE) packet)
           ZETTA_ERROR_PAYLOAD_TOO_LARGE ;;
    Ret (w, packet, ZETTA_ERROR).
Proof.
  intros Hst Hb. unfold zetta_ParseByte.
  rewrite gate_wait_pass by done. rewrite Hst.
  assert ((byte <=? MAX_PAYLOAD_SIZE) = false) as -> by (apply Z.leb_gt; lia).
  done.
Qed.

Lemma ParseByte_GET_PAYLOAD :
  rx_frame_state (_internal packet) = STATE_RX_GET_PAYLOAD →
  zetta_ParseByte (S fuel) w packet byte =
    do pl <- store (payload (frame (_internal packet)))
                   (index (_internal packet)) byte ;;
    let packet := upd_frame (set_payload pl) packet in
    let packet := upd (set_index (wrap8 (index (_internal packet) + 1))) packet in
    Ret (w,
         if index (_internal packet) >=? len (frame (_internal packet))
         then upd (set_rx_frame_state STATE_RX_GET_CRC) packet
         else packet,
         ZETTA_ERROR).
Proof.
  intros Hst. unfold zetta_ParseByte.
  rewrite gate_wait_pass by done. by rewrite Hst.
Qed.

Lemma ParseByte_GET_CRC :
  rx_frame_state (_internal packet) = STATE_RX_GET_CRC →
  zetta_ParseByte (S fuel) w packet byte =
    Ret (w, upd (set_rx_frame_state STATE_RX_GET_STOP)
              (upd_frame (set_crc byte) packet),
         ZETTA_ERROR).
Proof.
  intros Hst. unfold zetta_ParseByte.
  rewrite gate_wait_pass by done. by rewrite Hst.
Qed.

Lemma ParseByte_GET_STOP_hit :
  rx_frame_state (_internal packet) = STATE_RX_GET_STOP → byte = STOP_BYTE →
  zetta_ParseByte (S fuel) w packet byte =
    let packet := upd_frame (set_stop STOP_BYTE)
                    (upd (set_rx_frame_state STATE_RX_WAIT_START) packet) in
    do '(w, crc_val) <- zetta_compute_crc w packet ;;
    if crc_val =? crc (frame (_internal packet)) then
      Ret (w, upd (set_rx_frame_state STATE_RX_WAIT_START)
                (upd (set_payload_ready 1) packet),
           ZETTA_OK)
    else
      do '(w, packet) <- call_OnError w
             (upd (set_error ZETTA_ERROR_CRC_MISMATCH) packet)
             ZETTA_ERROR_CRC_MISMATCH ;;
      Ret (w, packet, ZETTA_ERROR).
Proof.
  intros Hst ->. unfold zetta_ParseByte.
  rewrite gate_wait_pass by done. by rewrite Hst.
Qed.

Lemma ParseByte_GET_STOP_miss :
  rx_frame_state (_internal packet) = STATE_RX_GET_STOP → byte ≠ STOP_BYTE →
  zetta_ParseByte (S fuel) w packet byte =
    do '(w, packet) <- call_OnError w
           (upd (set_error ZETTA_ERROR_INVALID_STOP) packet)
           ZETTA_ERROR_INVALID_STOP ;;
    Ret (w, packet, ZETTA_ERROR).
Proof.
  intros Hst Hb. unfold zetta_ParseByte.
  rewrite gate_wait_pass by done. rewrite Hst.
  apply Z.eqb_neq in Hb. by rewrite Hb.
Qed.

Lemma ParseByte_default :
  rx_frame_state (_internal packet) < STATE_RX_WAIT_START
  ∨ STATE_RX_GET_STOP < rx_frame_state (_internal packet) →
  zetta_ParseByte (S fuel) w packet byte =
    do '(w, packet) <- call_OnError w
           (upd (set_error ZETTA_FRAME_ERROR) packet) ZETTA_FRAME_ERROR ;;
    Ret (w, packet, ZETTA_ERROR).
Proof.
  unfold STATE_RX_WAIT_START, STATE_RX_GET_STOP. intros Hst.
  unfold zetta_ParseByte. rewrite gate_wait_pass by done.
  repeat match goal with
         | |- context [?a =? ?b] =>
             let E := fresh in
             destruct (Z.eqb_spec a b) as [E|E];
             [unfold STATE_RX_WAIT_START, STATE_RX_GET_TYPE, STATE_RX_GET_LEN,
                STATE_RX_GET_PAYLOAD, STATE_RX_GET_CRC, STATE_RX_GET_STOP in E;
              lia |]
         end.
  done.
Qed.
End Transitions.

Lemma bind_Ret {A B} (m : outcome A) (k : A → outcome B) (b : B) :
  bind m k = Ret b ↔ ∃ a, m = Ret a ∧ k a = Ret b.
Proof.
  split.
  - destruct m as [a| |]; simpl; [eauto | done | done].
  - by intros (a & -> & Hk).
Qed.

Lemma rx_state_cases (s : Z) :
  s = STATE_RX_WAIT_START ∨ s = STATE_RX_GET_TYPE ∨ s = STATE_RX_GET_LEN
  ∨ s = STATE_RX_GET_PAYLOAD ∨ s = STATE_RX_GET_CRC ∨ s = STATE_RX_GET_STOP
  ∨ (s < STATE_RX_WAIT_START ∨ STATE_RX_GET_STOP < s).
Proof.
  unfold STATE_RX_WAIT_START, STATE_RX_GET_TYPE, STATE_RX_GET_LEN,
    STATE_RX_GET_PAYLOAD, STATE_RX_GET_CRC, STATE_RX_GET_STOP. lia.
Qed.

(** A call that returns has passed the gate and taken one step. *)
Lemma ParseByte_Ret_step fuel w packet byte w' packet' r :
  zetta_ParseByte fuel w packet byte = Ret (w', packet', r) →
  pstate (_internal packet) ≠ ZETTA_STATE_RX_BUSY ∧ rx_step w packet byte w' packet' r.
Proof.
  intros Hr. destruct (ParseByte_Ret_gate _ _ _ _ _ Hr) as [Hg [fuel' ->]].
  split; [done|]. revert Hr.
  destruct (rx_state_cases (rx_frame_state (_internal packet)))
    as [Hs|[Hs|[Hs|[Hs|[Hs|[Hs|Hs]]]]]].
  - destruct (decide (byte = START_BYTE)) as [Hb|Hb].
    + rewrite ParseByte_WAIT_START_hit by done. intros [= <- <- <-].
      by apply step_start.
    + rewrite ParseByte_WAIT_START_miss by done.
      intros ([w1 p1] & Hc & [= <- <- <-])%bind_Ret.
      by apply step_invalid_start.
  - rewrite ParseByte_GET_TYPE by done. intros [= <- <- <-]. by apply step_type.
  - destruct (decide (byte ≤ MAX_PAYLOAD_SIZE)) as [Hb|Hb].
    + rewrite ParseByte_GET_LEN_ok by done. intros [= <- <- <-].
      by apply step_len.
    + rewrite ParseByte_GET_LEN_too_large by (done || lia).
      intros ([w1 p1] & Hc & [= <- <- <-])%bind_Ret.
      apply step_payload_too_large; [done | lia | done].
  - rewrite ParseByte_GET_PAYLOAD by done.
    intros (pl & Hst & [= <- <- <-])%bind_Ret.
    by apply (step_payload _ _ _ pl).
  - rewrite ParseByte_GET_CRC by done. intros [= <- <- <-]. by apply step_crc.
  - destruct (decide (byte = STOP_BYTE)) as [Hb|Hb].
    + rewrite ParseByte_GET_STOP_hit by done. cbv zeta.
      intros ([w1 c] & Hc & Hk)%bind_Ret. revert Hk.
      destruct (Z.eqb_spec c
        (crc (frame (_internal (upd_frame (set_stop STOP_BYTE)
           (upd (set_rx_frame_state STATE_RX_WAIT_START) packet))))))
        as [Hcrc|Hcrc].
      * intros [= <- <- <-]. by apply (step_complete _ _ _ _ c).
      * intros ([w2 p2] & Hc2 & [= <- <- <-])%bind_Ret.
        by apply (step_crc_mismatch _ _ _ w1 c).
    + rewrite ParseByte_GET_STOP_miss by done.
      intros ([w1 p1] & Hc & [= <- <- <-])%bind_Ret.
      by apply step_invalid_stop.
  - rewrite ParseByte_default by done.
    intros ([w1 p1] & Hc & [= <- <- <-])%bind_Ret.
    by apply step_frame_error.
Qed.

(** ** The error handler *)

Lemma call_OnError_default w packet e :
  OnError (interface packet) = OnError_zetta_error_manager →
  call_OnError w packet e = Ret (log (EvOnError e) w, zetta_error_manager packet e).
Proof. unfold call_OnError. by intros ->. Qed.

Lemma call_OnError_Ret w packet e :
  OnError (interface packet) ≠ OnError_NULL →
  ∃ packet', call_OnError w packet e = Ret (log (EvOnError e) w, packet')
             ∧ interface packet' = interface packet.
Proof.
  unfold call_OnError. intros Hn.
  destruct (OnError (interface packet)); [done | eauto | eauto].
Qed.

Lemma call_OnError_inv w packet e w' packet' :
  call_OnError w packet e = Ret (w', packet') →
  w' = log (EvOnError e) w ∧ interface packet' = interface packet.
Proof.
  unfold call_OnError.
  destruct (OnError (interface packet)); [done | |]; by intros [= <- <-].
Qed.

(** ** Feeding byte sequences *)

Lemma feed_bytes_cons fuel w packet b bs :
  feed_bytes fuel w packet (b :: bs) =
    do '(w, packet, r) <- zetta_ParseByte fuel w packet b ;;
    do '(w, packet, rs) <- feed_bytes fuel w packet bs ;;
    Ret (w, packet, r :: rs).
Proof. done. Qed.

Lemma feed_bytes_app fuel w packet bs1 bs2 :
  feed_bytes fuel w packet (bs1 ++ bs2) =
    do '(w, packet, rs1) <- feed_bytes fuel w packet bs1 ;;
    do '(w, packet, rs2) <- feed_bytes fuel w packet bs2 ;;
    Ret (w, packet, rs1 ++ rs2).
Proof.
  revert w packet. induction bs1 as [|b bs1 IH]; intros w packet.
  - simpl. by destruct (feed_bytes fuel w packet bs2) as [[[??]?]| |].
  - rewrite <- app_comm_cons, !feed_bytes_cons.
    destruct (zetta_ParseByte fuel w packet b) as [[[w1 p1] r]| |]; [|done|done].
    simpl. rewrite IH.
    destruct (feed_bytes fuel w1 p1 bs1) as [[[w2 p2] rs1]| |]; [|done|done].
    simpl. by destruct (feed_bytes fuel w2 p2 bs2) as [[[??]?]| |].
Qed.

Lemma wrap8_small z : 0 ≤ z < 256 → wrap8 z = z.
Proof. intros Hz. unfold wrap8. by apply Z.mod_small. Qed.

Lemma wrap16_small z : 0 ≤ z < 65536 → wrap16 z = z.
Proof. intros Hz. unfold wrap16. by apply Z.mod_small. Qed.

Lemma wrap32_small z : 0 ≤ z < 4294967296 → wrap32 z = z.
Proof. intros Hz. unfold wrap32. by apply Z.mod_small. Qed.

(** The payload loop: from payload index [i], the bytes that fill the payload
    up to the stored length are stored in order, and the last one moves the
    machine to GET_CRC. *)
Lemma feed_payload fuel w packet (i : nat) (bytes : list Z) :
  pstate (_internal packet) ≠ ZETTA_STATE_RX_BUSY →
  rx_frame_state (_internal packet) = STATE_RX_GET_PAYLOAD →
  index (_internal packet) = Z.of_nat i →
  len (frame (_internal packet)) = Z.of_nat (i + length bytes) →
  (i + length bytes ≤ length (payload (frame (_internal packet))))%nat →
  (i + length bytes ≤ 255)%nat →
  bytes ≠ [] →
  feed_bytes (S fuel) w packet bytes =
    Ret (w, payload_received i bytes packet,
         replicate (length bytes) ZETTA_ERROR).
Proof.
  revert packet i. induction bytes as [|b bytes IH]; [done|].
  intros packet i Hg Hst Hi Hlen Hbound H255 _.
  destruct packet as [itf [ps idx [s t l pl c sp] lbt err rx rdy]].
  simpl in Hg, Hst, Hi, Hlen, Hbound, H255. subst idx l rx.
  rewrite feed_bytes_cons, ParseByte_GET_PAYLOAD by done.
  unfold store. fields.
  rewrite bool_decide_eq_true_2 by lia. cbn [bind].
  rewrite wrap8_small by lia. rewrite Nat2Z.id.
  destruct bytes as [|b' bytes].
  - match goal with
    | |- context [?a >=? ?c] =>
        assert ((a >=? c) = true) as -> by (apply Z.geb_le; simpl; lia)
    end.
    cbn [feed_bytes bind]. unfold payload_received. fields. simpl length.
    rewrite insert_take_drop by lia.
    by rewrite Nat2Z.inj_add, Nat.add_1_r.
  - match goal with
    | |- context [?a >=? ?c] =>
        assert ((a >=? c) = false) as ->
          by (rewrite Z.geb_leb; apply Z.leb_gt; simpl; lia)
    end.
    simpl length in *.
    rewrite (IH _ (S i)); fields; simpl length; [|done|done|lia|lia| |lia|done].
    + cbn [bind]. unfold payload_received. fields. simpl length.
      rewrite (take_S_r _ _ b) by (apply list_lookup_insert_eq; lia).
      rewrite take_insert_ge by lia.
      rewrite drop_insert_lt by lia.
      rewrite <- app_assoc.
      replace (S i + S (length bytes))%nat with (i + S (S (length bytes)))%nat by lia.
      done.
    + rewrite length_insert. lia.
Qed.

(** A frame body taken from WAIT_START: start byte, type, length, payload
    and checksum byte leave the machine in GET_STOP with the frame stored;
    none of the calls reports a frame. *)
Lemma feed_frame_body fuel w packet ty pl c :
  pstate (_internal packet) ≠ ZETTA_STATE_RX_BUSY →
  rx_frame_state (_internal packet) = STATE_RX_WAIT_START →
  Z.of_nat (length pl) ≤ MAX_PAYLOAD_SIZE →
  (length pl ≤ length (payload (frame (_internal packet))))%nat →
  feed_bytes (S fuel) w packet
      ([START_BYTE; ty; Z.of_nat (length pl)] ++ pl ++ [c]) =
    Ret (w, frame_body_received ty pl c packet,
         replicate (4 + length pl) ZETTA_ERROR).
Proof.
  intros Hg Hst Hmax Hlen.
  destruct packet as [itf [ps idx [s t l pl0 c0 sp] lbt err rx rdy]].
  simpl in Hg, Hst, Hlen. subst rx. unfold MAX_PAYLOAD_SIZE in Hmax.
  cbn [app]. rewrite feed_bytes_cons, ParseByte_WAIT_START_hit by done.
  cbn [bind]. rewrite feed_bytes_cons, ParseByte_GET_TYPE by done.
  cbn [bind]. rewrite feed_bytes_cons, ParseByte_GET_LEN_ok by done.
  cbn [bind]. fields.
  destruct pl as [|b pl].
  - cbn [app length Z.of_nat Z.eqb]. rewrite feed_bytes_cons, ParseByte_GET_CRC by done.
    cbn [bind feed_bytes]. unfold frame_body_received. fields.
    by rewrite drop_0.
  - assert ((Z.of_nat (length (b :: pl)) =? 0) = false) as ->
      by (apply Z.eqb_neq; simpl; lia).
    rewrite feed_bytes_app, (feed_payload _ _ _ 0); fields;
      [|done|done|done|done|done|simpl in *; lia|done].
    cbn [bind]. rewrite feed_bytes_cons, ParseByte_GET_CRC by done.
    cbn [bind feed_bytes]. unfold frame_body_received, payload_received. fields.
    rewrite take_0, Nat.add_0_l. cbn [app].
    by rewrite <- replicate_S_end.
Qed.

(** The checksum of a stored frame is taken over type, length and the first
    [len] payload bytes. *)
Lemma compute_crc_span w packet :
  0 ≤ len (frame (_internal packet)) ≤ MAX_PAYLOAD_SIZE →
  (Z.to_nat (len (frame (_internal packet)))
     ≤ length (payload (frame (_internal packet))))%nat →
  let f := frame (_internal packet) in
  let v := wrap32 (computeCRC (interface packet)
                     (type f :: len f :: take (Z.to_nat (len f)) (payload f))) in
  zetta_compute_crc w packet = Ret (set_dbg_crc_val v w, v).
Proof.
  intros Hlen Hpl. unfold zetta_compute_crc, MAX_PAYLOAD_SIZE in *. cbv zeta.
  rewrite bool_decide_eq_true_2 by lia.
  rewrite (wrap32_small (1 + 1 + _)) by lia.
  replace (Z.to_nat (1 + 1 + len (frame (_internal packet))))
    with (S (S (Z.to_nat (len (frame (_internal packet)))))) by lia.
  done.
Qed.

Lemma compute_crc_frame_body w packet ty pl c :
  Z.of_nat (length pl) ≤ MAX_PAYLOAD_SIZE →
  (length pl ≤ length (payload (frame (_internal packet))))%nat →
  zetta_compute_crc w
      (upd_frame (set_stop STOP_BYTE)
         (upd (set_rx_frame_state STATE_RX_WAIT_START)
            (frame_body_received ty pl c packet))) =
    let v := frame_crc (computeCRC (interface packet)) ty pl in
    Ret (set_dbg_crc_val v w, v).
Proof.
  intros Hmax Hlen. rewrite compute_crc_span.
  - unfold frame_body_received, frame_crc. fields.
    by rewrite Nat2Z.id, take_app_length.
  - unfold frame_body_received. fields. lia.
  - unfold frame_body_received. fields.
    rewrite Nat2Z.id, length_app. lia.
Qed.

(** A whole frame taken from WAIT_START whose checksum byte equals the
    checksum value is reported by the call that takes the stop byte. *)
Lemma feed_frame_accept fuel w packet ty pl c :
  pstate (_internal packet) ≠ ZETTA_STATE_RX_BUSY →
  rx_frame_state (_internal packet) = STATE_RX_WAIT_START →
  Z.of_nat (length pl) ≤ MAX_PAYLOAD_SIZE →
  (length pl ≤ length (payload (frame (_internal packet))))%nat →
  frame_crc (computeCRC (interface packet)) ty pl = c →
  feed_bytes (S fuel) w packet (wire_frame ty pl c) =
    Ret (set_dbg_crc_val c w, frame_received ty pl c packet,
         replicate (4 + length pl) ZETTA_ERROR ++ [ZETTA_OK]).
Proof.
  intros Hg Hst Hmax Hlen Hc. unfold wire_frame.
  replace ([START_BYTE; ty; Z.of_nat (length pl)] ++ pl ++ [c; STOP_BYTE])
    with (([START_BYTE; ty; Z.of_nat (length pl)] ++ pl ++ [c]) ++ [STOP_BYTE])
    by (by rewrite <- !app_assoc).
  rewrite feed_bytes_app, feed_frame_body by done. cbn [bind].
  rewrite feed_bytes_cons, ParseByte_GET_STOP_hit by done. cbv zeta.
  rewrite compute_crc_frame_body by done. cbv zeta. cbn [bind].
  rewrite Hc. replace (c =? _) with true by (symmetry; by apply Z.eqb_eq).
  done.
Qed.

(** With any other checksum byte the frame is dropped: the library's handler
    is told of the mismatch and no call reports a frame. *)
Lemma feed_frame_reject fuel w packet ty pl c :
  pstate (_internal packet) ≠ ZETTA_STATE_RX_BUSY →
  rx_frame_state (_internal packet) = STATE_RX_WAIT_START →
  OnError (interface packet) = OnError_zetta_error_manager →
  Z.of_nat (length pl) ≤ MAX_PAYLOAD_SIZE →
  (length pl ≤ length (payload (frame (_internal packet))))%nat →
  frame_crc (computeCRC (interface packet)) ty pl ≠ c →
  feed_bytes (S fuel) w packet (wire_frame ty pl c) =
    Ret (log (EvOnError ZETTA_ERROR_CRC_MISMATCH)
           (set_dbg_crc_val (frame_crc (computeCRC (interface packet)) ty pl) w),
         frame_rejected ty pl c packet,
         replicate (5 + length pl) ZETTA_ERROR).
Proof.
  intros Hg Hst Hh Hmax Hlen Hc. unfold wire_frame.
  replace ([START_BYTE; ty; Z.of_nat (length pl)] ++ pl ++ [c; STOP_BYTE])
    with (([START_BYTE; ty; Z.of_nat (length pl)] ++ pl ++ [c]) ++ [STOP_BYTE])
    by (by rewrite <- !app_assoc).
  rewrite feed_bytes_app, feed_frame_body by done. cbn [bind].
  rewrite feed_bytes_cons, ParseByte_GET_STOP_hit by done. cbv zeta.
  rewrite compute_crc_frame_body by done. cbv zeta. cbn [bind].
  replace (_ =? _) with false by (symmetry; by apply Z.eqb_neq).
  rewrite call_OnError_default by done. cbn [bind feed_bytes].
  replace (5 + length pl)%nat with (S (4 + length pl)) by lia.
  by rewrite replicate_S_end.
Qed.

(** ** The encoder *)

Lemma memcpy_Ret dst off src n :
  (n ≤ length src)%nat → (off + n ≤ length dst)%nat →
  memcpy dst off src n = Ret (take off dst ++ take n src ++ drop (off + n) dst).
Proof. intros H1 H2. unfold memcpy. by rewrite bool_decide_eq_true_2. Qed.

(** The two stores that close a frame in the transmit buffer. *)
Lemma tx_layout (ty n c : Z) (pl tl : list Z) :
  (length pl ≤ 25)%nat →
  <[(length pl + 4)%nat := STOP_BYTE]>
    (<[(length pl + 3)%nat := c]>
       (START_BYTE :: ty :: n :: pl ++ replicate (27 - length pl) 0 ++ tl)) =
  [START_BYTE; ty; n] ++ pl ++ [c; STOP_BYTE]
    ++ replicate (25 - length pl) 0 ++ tl.
Proof.
  intros Hpl.
  change (START_BYTE :: ty :: n :: ?l) with ([START_BYTE; ty; n] ++ l).
  replace (27 - length pl)%nat with (S (S (25 - length pl))) by lia.
  cbn [replicate].
  rewrite (insert_app_r_alt [START_BYTE; ty; n]) by (simpl; lia).
  rewrite (insert_app_r_alt pl) by (simpl; lia).
  rewrite (insert_app_r_alt [START_BYTE; ty; n]) by (simpl; lia).
  rewrite (insert_app_r_alt pl) by (simpl; lia).
  cbn [length].
  replace (length pl + 3 - 3 - length pl)%nat with 0%nat by lia.
  replace (length pl + 4 - 3 - length pl)%nat with 1%nat by lia.
  done.
Qed.

(** A send that passes the gate with a length inside the bound: the frame is
    laid out in [tx_buf], the transport is called once with the buffer and
    [3 + len + 2], and the instance keeps a copy of the frame. *)
Lemma send_ok fuel w packet ty pData n :
  pstate (_internal packet) ≠ ZETTA_STATE_TX_BUSY →
  0 ≤ n ≤ MAX_PAYLOAD_SIZE →
  (Z.to_nat n ≤ length pData)%nat →
  (Z.to_nat n ≤ length (payload (frame (_internal packet))))%nat →
  let pl := take (Z.to_nat n) pData in
  let v := frame_crc (computeCRC (interface packet)) ty pl in
  zetta_send (S fuel) w packet ty pData n =
    Ret (world_after_send w (send (interface packet)) ty pl v,
         instance_after_send ty pl v packet, ZETTA_OK).
Proof.
  intros Hg Hn Hdata Hpl pl v. unfold MAX_PAYLOAD_SIZE in Hn.
  assert (length pl = Z.to_nat n) as Hlen by (unfold pl; rewrite length_take; lia).
  assert (n = Z.of_nat (length pl)) as Hn' by lia.
  unfold zetta_send. rewrite gate_wait_pass by done.
  assert ((n >? MAX_PAYLOAD_SIZE) = false) as ->
    by (rewrite Z.gtb_ltb; apply Z.ltb_ge; unfold MAX_PAYLOAD_SIZE; lia).
  unfold tx_push, memset. fields.
  change (wrap16 (wrap16 (wrap16 (0 + 1) + 1) + 1)) with 3.
  change (wrap16 (wrap16 (0 + 1) + 1)) with 2.
  change (wrap16 (0 + 1)) with 1.
  rewrite (wrap16_small (3 + n)) by lia.
  change (<[Z.to_nat 2:=n]> (<[Z.to_nat 1:=ty]> (<[Z.to_nat 0:=START_BYTE]>
            (replicate 30 0 ++ drop 30 (tx_buf w)))))
    with ([START_BYTE; ty; n] ++ replicate 27 0 ++ drop 30 (tx_buf w)).
  rewrite !memcpy_Ret;
    [|lia|simpl; lia|lia|rewrite !length_app, length_replicate; simpl; lia].
  cbn [bind]. fold pl.
  change (take (Z.to_nat 3) ([START_BYTE; ty; n] ++ ?l)) with [START_BYTE; ty; n].
  change (drop (Z.to_nat 3 + ?k) ([START_BYTE; ty; n] ++ ?l)) with (drop k l).
  rewrite drop_app_le, drop_replicate by (rewrite length_replicate; lia).
  rewrite take_0. cbn [app Nat.add].
  rewrite compute_crc_span; fields;
    [|unfold MAX_PAYLOAD_SIZE; lia|rewrite length_app, length_drop; lia].
  cbn [bind]. fields. rewrite take_app_length' by done.
  replace (computeCRC _ _) with (computeCRC (interface packet)
     (ty :: Z.of_nat (length pl) :: pl)) by (by rewrite <- Hn').
  fold (frame_crc (computeCRC (interface packet)) ty pl). fold v.
  rewrite (wrap16_small (3 + n + 1)), (wrap16_small (3 + n + 1 + 1)),
    (wrap8_small (3 + n + 1 + 1)) by lia.
  replace (Z.to_nat (3 + n)) with (length pl + 3)%nat by lia.
  replace (Z.to_nat (3 + n + 1)) with (length pl + 4)%nat by lia.
  rewrite <- Hlen.
  rewrite (tx_layout ty n (wrap8 v) pl (drop 30 (tx_buf w))) by lia.
  unfold world_after_send, instance_after_send, wire_frame. fields.
  rewrite <- Hn', <- !app_assoc.
  by replace (n + 5) with (3 + n + 1 + 1) by lia.
Qed.

(** ** The invariant *)

Lemma init_invariant packet itf : invariant (zetta_init packet itf).
Proof. unfold invariant, zetta_init. simpl. consts. repeat split; (done || lia). Qed.

Lemma store_inv arr i v arr' :
  store arr i v = Ret arr' →
  0 ≤ i < Z.of_nat (length arr) ∧ arr' = <[Z.to_nat i := v]> arr.
Proof.
  unfold store. destruct (bool_decide_reflect (0 ≤ i < Z.of_nat (length arr)));
    [|done]. by intros [= <-].
Qed.

Lemma ParseByte_invariant fuel w packet byte w' packet' r :
  invariant packet → is_byte byte →
  zetta_ParseByte fuel w packet byte = Ret (w', packet', r) →
  invariant packet'.
Proof.
  intros (Hh & Hpl & Hlen & Hg & Hrx & Hidx0 & Hidx) Hb
    [_ Hstep]%ParseByte_Ret_step.
  inversion Hstep; subst;
    repeat match goal with
    | x := _ |- _ => subst x
    | H : call_OnError _ _ _ = Ret _ |- _ =>
        rewrite call_OnError_default in H by done; injection H as <- <-
    | H : store _ _ _ = Ret _ |- _ => apply store_inv in H as [? ->]
    | |- context [if ?c then _ else _] => destruct c eqn:?
    end;
    unfold invariant; fields; consts;
    rewrite ?length_insert, ?wrap8_small in * by lia;
    repeat split; try done; try lia.
Qed.

(** What a returning [zetta_send] did. *)
Lemma send_Ret_inv fuel w packet ty pData n w' packet' r :
  0 ≤ n →
  zetta_send fuel w packet ty pData n = Ret (w', packet', r) →
  pstate (_internal packet) ≠ ZETTA_STATE_TX_BUSY
  ∧ ((n > MAX_PAYLOAD_SIZE
      ∧ call_OnError w packet ZETTA_ERROR_PAYLOAD_TOO_LARGE = Ret (w', packet')
      ∧ r = ZETTA_ERROR_PAYLOAD_TOO_LARGE)
     ∨ (n ≤ MAX_PAYLOAD_SIZE
        ∧ (Z.to_nat n ≤ length pData)%nat
        ∧ (Z.to_nat n ≤ length (payload (frame (_internal packet))))%nat
        ∧ w' = world_after_send w (send (interface packet)) ty
                 (take (Z.to_nat n) pData)
                 (frame_crc (computeCRC (interface packet)) ty
                    (take (Z.to_nat n) pData))
        ∧ packet' = instance_after_send ty (take (Z.to_nat n) pData)
                      (frame_crc (computeCRC (interface packet)) ty
                         (take (Z.to_nat n) pData)) packet
        ∧ r = ZETTA_OK)).
Proof.
  intros Hn Hr. destruct (send_Ret_gate _ _ _ _ _ _ _ Hr) as [Hg [fuel' ->]].
  split; [done|].
  destruct (decide (n > MAX_PAYLOAD_SIZE)) as [Hbig|Hsmall].
  - left. unfold zetta_send in Hr. rewrite gate_wait_pass in Hr by done.
    assert ((n >? MAX_PAYLOAD_SIZE) = true) as Hgt
      by (rewrite Z.gtb_ltb; apply Z.ltb_lt; lia).
    rewrite Hgt in Hr. apply bind_Ret in Hr as ([w1 p1] & Hc & [= <- <- <-]).
    done.
  - right.
    destruct (decide (Z.to_nat n ≤ length pData)%nat) as [Hdata|Hdata];
      [destruct (decide (Z.to_nat n
                         ≤ length (payload (frame (_internal packet))))%nat)
         as [Hpl|Hpl]|].
    + rewrite send_ok in Hr by (done || lia). injection Hr as <- <- <-.
      repeat split; (done || lia).
    + exfalso. unfold zetta_send in Hr. rewrite gate_wait_pass in Hr by done.
      assert ((n >? MAX_PAYLOAD_SIZE) = false) as Hgt
        by (rewrite Z.gtb_ltb; apply Z.ltb_ge; lia).
      rewrite Hgt in Hr. apply bind_Ret in Hr as (buf & _ & Hr).
      apply bind_Ret in Hr as (pl & Hpl' & _). fields in Hpl'.
      unfold memcpy in Hpl'. rewrite bool_decide_eq_false_2 in Hpl' by lia.
      done.
    + exfalso. unfold zetta_send in Hr. rewrite gate_wait_pass in Hr by done.
      assert ((n >? MAX_PAYLOAD_SIZE) = false) as Hgt
        by (rewrite Z.gtb_ltb; apply Z.ltb_ge; lia).
      rewrite Hgt in Hr. apply bind_Ret in Hr as (buf & Hbuf & _).
      unfold memcpy in Hbuf. rewrite bool_decide_eq_false_2 in Hbuf by lia.
      done.
Qed.

Lemma send_invariant fuel w packet ty pData n w' packet' r :
  invariant packet → is_byte n →
  zetta_send fuel w packet ty pData n = Ret (w', packet', r) →
  invariant packet'.
Proof.
  intros (Hh & Hpl & Hlen & Hg & Hrx & Hidx0 & Hidx) Hn Hr.
  assert (0 ≤ n) as Hn0 by (unfold is_byte in Hn; lia).
  destruct (send_Ret_inv _ _ _ _ _ _ _ _ _ Hn0 Hr)
    as [_ [(_ & Hc & _)|(Hmax & Hdata & _ & _ & -> & _)]].
  - rewrite call_OnError_default in Hc by done. injection Hc as <- <-.
    unfold invariant. fields. consts. repeat split; (done || lia).
  - unfold invariant, instance_after_send. fields.
    rewrite length_app, length_drop, length_take. consts.
    repeat split; try done; lia.
Qed.

Theorem reachable_invariant w packet : reachable w packet → invariant packet.
Proof.
  induction 1 as [w packet itf|w packet fuel c w' packet' r _ IH Hty Hrun].
  - apply init_invariant.
  - destruct c as [ty pData n|byte| |]; simpl in Hty, Hrun.
    + destruct Hty as [_ Hn].
      exact (send_invariant _ _ _ _ _ _ _ _ _ IH Hn Hrun).
    + exact (ParseByte_invariant _ _ _ _ _ _ _ IH Hty Hrun).
    + injection Hrun as <- <- <-.
      destruct IH as (Hh & Hpl & Hlen & Hg & Hrx & Hidx0 & Hidx).
      unfold invariant. fields. repeat split; (done || lia).
    + injection Hrun as <- <- <-.
      destruct IH as (Hh & Hpl & Hlen & Hg & Hrx & Hidx0 & Hidx).
      unfold invariant. fields. repeat split; (done || lia).
Qed.

(** ** Termination of the byte feed *)

Lemma invariant_well_formed packet : invariant packet → well_formed packet.
Proof.
  intros (Hh & Hpl & Hlen & Hg & Hrx & Hidx0 & Hidx). unfold well_formed.
  cbv zeta. rewrite Hh, Hpl. consts. repeat split; try done; lia.
Qed.

Lemma ParseByte_returns w packet byte :
  pstate (_internal packet) ≠ ZETTA_STATE_RX_BUSY →
  well_formed packet →
  ∃ res, zetta_ParseByte 1 w packet byte = Ret res.
Proof.
  intros Hg (Hh & Hidx & Hlen).
  assert (∀ w p e, interface p = interface packet →
            ∃ res, (do '(w, p) <- call_OnError w p e ;; Ret (w, p, ZETTA_ERROR))
                   = Ret res) as Hraise.
  { intros w0 p e Hitf.
    destruct (call_OnError_Ret w0 p e) as (p' & -> & _); [by rewrite Hitf|].
    simpl. eauto. }
  destruct (rx_state_cases (rx_frame_state (_internal packet)))
    as [Hs|[Hs|[Hs|[Hs|[Hs|[Hs|Hs]]]]]].
  - destruct (decide (byte = START_BYTE)) as [Hb|Hb].
    + rewrite ParseByte_WAIT_START_hit by done. eauto.
    + rewrite ParseByte_WAIT_START_miss by done. by apply Hraise.
  - rewrite ParseByte_GET_TYPE by done. eauto.
  - destruct (decide (byte ≤ MAX_PAYLOAD_SIZE)) as [Hb|Hb].
    + rewrite ParseByte_GET_LEN_ok by done. eauto.
    + rewrite ParseByte_GET_LEN_too_large by (done || lia). by apply Hraise.
  - rewrite ParseByte_GET_PAYLOAD by done. unfold store.
    rewrite bool_decide_eq_true_2 by auto. simpl. eauto.
  - rewrite ParseByte_GET_CRC by done. eauto.
  - destruct (decide (byte = STOP_BYTE)) as [Hb|Hb].
    + rewrite ParseByte_GET_STOP_hit by done. cbv zeta.
      unfold zetta_compute_crc. fields.
      rewrite bool_decide_eq_true_2 by auto. cbn [bind].
      destruct (_ =? _); [eauto|]. by apply Hraise.
    + rewrite ParseByte_GET_STOP_miss by done. by apply Hraise.
  - rewrite ParseByte_default by done. by apply Hraise.
Qed.

(** C3, as the code has it.  [zetta_ParseByte] waits on the gate: while
    [pstate] is RX_BUSY the call spins on the field and never returns, however
    much fuel it is given.  For every other value of [pstate], and every byte,
    a call on a well-formed instance returns, and one evaluation of the loop
    condition is all the waiting it does.  Every instance reached from
    [zetta_init] through the library is of that kind: on it the call
    returns. *)
Theorem C3_ParseByte_returns_unless_rx_busy w packet byte :
  (pstate (_internal packet) = ZETTA_STATE_RX_BUSY →
   ∀ fuel, zetta_ParseByte fuel w packet byte = Spin)
  ∧ (pstate (_internal packet) ≠ ZETTA_STATE_RX_BUSY →
     well_formed packet →
     ∃ res, ∀ fuel, zetta_ParseByte (S fuel) w packet byte = Ret res)
  ∧ (reachable w packet →
     ∃ res, ∀ fuel, zetta_ParseByte (S fuel) w packet byte = Ret res).
Proof.
  assert (pstate (_internal packet) ≠ ZETTA_STATE_RX_BUSY →
          well_formed packet →
          ∃ res, ∀ fuel, zetta_ParseByte (S fuel) w packet byte = Ret res)
    as Hret.
  { intros Hg Hwf.
    destruct (ParseByte_returns w packet byte Hg Hwf) as [res Hres].
    exists res. intros fuel. by rewrite ParseByte_fuel. }
  split; [|split; [exact Hret|]].
  - intros Hbusy fuel. by apply ParseByte_spin.
  - intros Hinv%reachable_invariant. apply Hret.
    + by destruct Hinv as (_ & _ & _ & Hg & _).
    + by apply invariant_well_formed.
Qed.

Lemma C3_witness :
  pstate (_internal (zetta_init blank (iface xor_crc))) ≠ ZETTA_STATE_RX_BUSY
  ∧ well_formed (zetta_init blank (iface xor_crc))
  ∧ (∃ res, ∀ fuel,
       zetta_ParseByte (S fuel) empty_world (zetta_init blank (iface xor_crc))
         START_BYTE = Ret res)
  ∧ (∀ fuel, zetta_ParseByte fuel empty_world rx_busy_instance START_BYTE = Spin).
Proof.
  assert (pstate (_internal (zetta_init blank (iface xor_crc)))
          ≠ ZETTA_STATE_RX_BUSY) as Hg by discriminate.
  assert (well_formed (zetta_init blank (iface xor_crc))) as Hwf
    by (apply invariant_well_formed, init_invariant).
  split; [exact Hg|]. split; [exact Hwf|]. split.
  - exact (proj1 (proj2 (C3_ParseByte_returns_unless_rx_busy empty_world
                           (zetta_init blank (iface xor_crc)) START_BYTE))
             Hg Hwf).
  - exact (proj1 (C3_ParseByte_returns_unless_rx_busy empty_world
                    rx_busy_instance START_BYTE) eq_refl).
Defined.

(** C3 as stated fails: on an instance whose gate field is RX_BUSY the call
    returns for no amount of fuel. *)
Lemma C3_counterexample :
  ¬ ∃ fuel res,
      zetta_ParseByte fuel empty_world rx_busy_instance START_BYTE = Ret res.
Proof.
  intros (fuel & res & Hres).
  by rewrite ParseByte_spin in Hres.
Qed.

(** ** Initialization *)

(** C4, as the code has it.  [zetta_init] installs the library's two
    completion callbacks and the library's error handler unconditionally,
    whatever the caller's interface record holds in those fields, and keeps
    the caller's transport and checksum functions.  It leaves the frame, the
    payload index, the time stamp and the payload-ready flag at zero, the
    receive state machine in WAIT_START, the error field at ZETTA_OK and the
    gate field at RX_READY, a value on which neither [zetta_send] nor
    [zetta_ParseByte] waits. *)
Theorem C4_init_installs_defaults packet itf :
  let packet' := zetta_init packet itf in
  rxCpltClbk (interface packet') = Clbk_zetta_recieve_cplt_clb
  ∧ txCpltClbk (interface packet') = Clbk_zetta_transmit_cplt_clb
  ∧ OnError (interface packet') = OnError_zetta_error_manager
  ∧ send (interface packet') = send itf
  ∧ receive (interface packet') = receive itf
  ∧ computeCRC (interface packet') = computeCRC itf
  ∧ _internal packet' =
      mkInternal ZETTA_STATE_RX_READY 0 zero_frame 0 ZETTA_OK
                 STATE_RX_WAIT_START 0
  ∧ gate_wait 1 ZETTA_STATE_TX_BUSY packet' = true
  ∧ gate_wait 1 ZETTA_STATE_RX_BUSY packet' = true.
Proof. by repeat split. Qed.

(** C4 as stated fails: callbacks and an error handler supplied by the caller
    are not the ones installed. *)
Lemma C4_counterexample :
  rxCpltClbk user_iface ≠ Clbk_NULL
  ∧ txCpltClbk user_iface ≠ Clbk_NULL
  ∧ OnError user_iface ≠ OnError_NULL
  ∧ rxCpltClbk (interface (zetta_init blank user_iface)) ≠ rxCpltClbk user_iface
  ∧ txCpltClbk (interface (zetta_init blank user_iface)) ≠ txCpltClbk user_iface
  ∧ OnError (interface (zetta_init blank user_iface)) ≠ OnError user_iface.
Proof. by repeat split. Qed.

(** ** Oversize sends *)

(** C5.  A send of more than MAX_PAYLOAD_SIZE bytes that finds the transmit
    gate open returns ZETTA_ERROR_PAYLOAD_TOO_LARGE after one call of the
    error handler with that error; the transport is not called and the
    transmit buffer and its size are left as they were.  Whatever the gate,
    no outcome of such a send adds a transport call to the log. *)
Theorem C5_oversize_send_rejected w packet ty pData n :
  n > MAX_PAYLOAD_SIZE →
  (pstate (_internal packet) ≠ ZETTA_STATE_TX_BUSY →
   OnError (interface packet) ≠ OnError_NULL →
   ∃ w' packet',
     (∀ fuel, zetta_send (S fuel) w packet ty pData n =
                Ret (w', packet', ZETTA_ERROR_PAYLOAD_TOO_LARGE))
     ∧ calls w' = calls w ++ [EvOnError ZETTA_ERROR_PAYLOAD_TOO_LARGE]
     ∧ tx_buf w' = tx_buf w
     ∧ buf_tx_size w' = buf_tx_size w)
  ∧ (∀ fuel w' packet' r,
       zetta_send fuel w packet ty pData n = Ret (w', packet', r) →
       r = ZETTA_ERROR_PAYLOAD_TOO_LARGE
       ∧ calls w' = calls w ++ [EvOnError ZETTA_ERROR_PAYLOAD_TOO_LARGE]
       ∧ tx_buf w' = tx_buf w).
Proof.
  intros Hbig.
  assert ((n >? MAX_PAYLOAD_SIZE) = true) as Hgt
    by (rewrite Z.gtb_ltb; apply Z.ltb_lt; lia).
  split.
  - intros Hg Hh.
    destruct (call_OnError_Ret w packet ZETTA_ERROR_PAYLOAD_TOO_LARGE Hh)
      as (packet' & Hc & _).
    exists (log (EvOnError ZETTA_ERROR_PAYLOAD_TOO_LARGE) w), packet'.
    split; [|done]. intros fuel. unfold zetta_send.
    rewrite gate_wait_pass by done. by rewrite Hgt, Hc.
  - intros fuel w' packet' r Hr.
    destruct (send_Ret_gate _ _ _ _ _ _ _ Hr) as [Hg [fuel' ->]].
    unfold zetta_send in Hr. rewrite gate_wait_pass, Hgt in Hr by done.
    apply bind_Ret in Hr as ([w1 p1] & Hc & [= <- <- <-]).
    apply call_OnError_inv in Hc as [-> _]. done.
Qed.

Lemma C5_witness :
  26 > MAX_PAYLOAD_SIZE
  ∧ ∃ w' packet',
      (∀ fuel, zetta_send (S fuel) empty_world (zetta_init blank (iface xor_crc))
                 MSG_PUBLISH (replicate 26 7) 26 =
               Ret (w', packet', ZETTA_ERROR_PAYLOAD_TOO_LARGE))
      ∧ calls w' = calls empty_world ++ [EvOnError ZETTA_ERROR_PAYLOAD_TOO_LARGE]
      ∧ tx_buf w' = tx_buf empty_world
      ∧ buf_tx_size w' = buf_tx_size empty_world.
Proof.
  assert (26 > MAX_PAYLOAD_SIZE) as Hbig by reflexivity.
  split; [exact Hbig|].
  apply (proj1 (C5_oversize_send_rejected empty_world
                  (zetta_init blank (iface xor_crc)) MSG_PUBLISH
                  (replicate 26 7) 26 Hbig)); discriminate.
Defined.

(** ** The GET_LEN transition *)

(** C8.  In GET_LEN, past the gate: a byte up to MAX_PAYLOAD_SIZE is recorded
    as the frame length, and the machine moves to GET_CRC when it is zero and
    to GET_PAYLOAD otherwise, everything else being left as it was; a larger
    byte is recorded as a PayloadTooLarge error and handed to the error
    handler, and with the library's handler the machine is back in WAIT_START
    after the call, the stored length unchanged. *)
Theorem C8_GET_LEN_transition fuel w packet b :
  rx_frame_state (_internal packet) = STATE_RX_GET_LEN →
  pstate (_internal packet) ≠ ZETTA_STATE_RX_BUSY →
  (b ≤ MAX_PAYLOAD_SIZE →
   ∃ packet',
     zetta_ParseByte (S fuel) w packet b = Ret (w, packet', ZETTA_ERROR)
     ∧ len (frame (_internal packet')) = b
     ∧ rx_frame_state (_internal packet') =
         (if b =? 0 then STATE_RX_GET_CRC else STATE_RX_GET_PAYLOAD)
     ∧ packet' =
         upd (set_rx_frame_state (rx_frame_state (_internal packet')))
           (upd_frame (set_len b) packet))
  ∧ (b > MAX_PAYLOAD_SIZE →
     OnError (interface packet) = OnError_zetta_error_manager →
     ∃ w' packet',
       zetta_ParseByte (S fuel) w packet b = Ret (w', packet', ZETTA_ERROR)
       ∧ calls w' = calls w ++ [EvOnError ZETTA_ERROR_PAYLOAD_TOO_LARGE]
       ∧ error (_internal packet') = ZETTA_ERROR_PAYLOAD_TOO_LARGE
       ∧ rx_frame_state (_internal packet') = STATE_RX_WAIT_START
       ∧ frame (_internal packet') = frame (_internal packet)
       ∧ payload_ready (_internal packet') = payload_ready (_internal packet)).
Proof.
  intros Hst Hg. split.
  - intros Hb. eexists. rewrite ParseByte_GET_LEN_ok by done.
    split; [reflexivity|]. by fields.
  - intros Hb Hh. rewrite ParseByte_GET_LEN_too_large by done.
    rewrite call_OnError_default by done. cbn [bind].
    eexists _, _. split; [reflexivity|]. by fields.
Qed.

Lemma C8_witness :
  rx_frame_state (_internal get_len_instance) = STATE_RX_GET_LEN
  ∧ pstate (_internal get_len_instance) ≠ ZETTA_STATE_RX_BUSY
  ∧ (∃ packet',
       zetta_ParseByte 1 empty_world get_len_instance 0
         = Ret (empty_world, packet', ZETTA_ERROR)
       ∧ len (frame (_internal packet')) = 0
       ∧ rx_frame_state (_internal packet') = STATE_RX_GET_CRC)
  ∧ (∃ packet',
       zetta_ParseByte 1 empty_world get_len_instance 25
         = Ret (empty_world, packet', ZETTA_ERROR)
       ∧ len (frame (_internal packet')) = 25
       ∧ rx_frame_state (_internal packet') = STATE_RX_GET_PAYLOAD)
  ∧ (∃ w' packet',
       zetta_ParseByte 1 empty_world get_len_instance 26
         = Ret (w', packet', ZETTA_ERROR)
       ∧ calls w' = [EvOnError ZETTA_ERROR_PAYLOAD_TOO_LARGE]
       ∧ rx_frame_state (_internal packet') = STATE_RX_WAIT_START).
Proof.
  assert (rx_frame_state (_internal get_len_instance) = STATE_RX_GET_LEN)
    as Hst by reflexivity.
  assert (pstate (_internal get_len_instance) ≠ ZETTA_STATE_RX_BUSY)
    as Hg by discriminate.
  split; [exact Hst|]. split; [exact Hg|]. repeat split.
  - destruct (proj1 (C8_GET_LEN_transition 0 empty_world get_len_instance 0
                       Hst Hg)) as (p & H1 & H2 & H3 & _); [by compute|].
    by exists p.
  - destruct (proj1 (C8_GET_LEN_transition 0 empty_world get_len_instance 25
                       Hst Hg)) as (p & H1 & H2 & H3 & _); [by compute|].
    by exists p.
  - destruct (proj2 (C8_GET_LEN_transition 0 empty_world get_len_instance 26
                       Hst Hg)) as (w' & p & H1 & H2 & _ & H3 & _);
      [reflexivity|reflexivity|].
    by exists w', p.
Defined.

(** ** The shared gate field *)

(** C9.  One field holds both gates.  A send that returns ZETTA_OK leaves it
    at TX_BUSY whatever it held, a receive-gate value included; the
    receive-complete callback leaves it at RX_READY whatever it held, TX_BUSY
    included, so that a send waiting for the transmission to complete is let
    through by a receive completion. *)
Theorem C9_gates_share_one_field :
  (∀ fuel w packet ty pData n w' packet',
     zetta_send fuel w packet ty pData n = Ret (w', packet', ZETTA_OK) →
     pstate (_internal packet') = ZETTA_STATE_TX_BUSY)
  ∧ (∀ packet,
       pstate (_internal (zetta_recieve_cplt_clb packet)) = ZETTA_STATE_RX_READY)
  ∧ (∀ fuel packet, pstate (_internal packet) = ZETTA_STATE_TX_BUSY →
       gate_wait fuel ZETTA_STATE_TX_BUSY packet = false
       ∧ gate_wait (S fuel) ZETTA_STATE_TX_BUSY (zetta_recieve_cplt_clb packet)
         = true).
Proof.
  split; [|split].
  - intros fuel w packet ty pData n w' packet' Hr.
    destruct (send_Ret_gate _ _ _ _ _ _ _ Hr) as [Hg [fuel' ->]].
    unfold zetta_send in Hr. rewrite gate_wait_pass in Hr by done.
    destruct (n >? MAX_PAYLOAD_SIZE).
    + by apply bind_Ret in Hr as ([w1 p1] & _ & [=]).
    + apply bind_Ret in Hr as (buf & _ & Hr).
      apply bind_Ret in Hr as (pl & _ & Hr).
      apply bind_Ret in Hr as ([w1 c] & _ & [= _ <-]). done.
  - done.
  - intros fuel packet Hbusy. split; [by apply gate_wait_spin|].
    by apply gate_wait_pass.
Qed.

Lemma C9_witness :
  (∃ w' packet',
     zetta_send 1 empty_world (zetta_init blank (iface xor_crc))
       MSG_PUBLISH [1; 2] 2 = Ret (w', packet', ZETTA_OK)
     ∧ pstate (_internal (zetta_init blank (iface xor_crc)))
       = ZETTA_STATE_RX_READY
     ∧ pstate (_internal packet') = ZETTA_STATE_TX_BUSY)
  ∧ pstate (_internal tx_busy_instance) = ZETTA_STATE_TX_BUSY
  ∧ gate_wait 5 ZETTA_STATE_TX_BUSY tx_busy_instance = false
  ∧ gate_wait 1 ZETTA_STATE_TX_BUSY (zetta_recieve_cplt_clb tx_busy_instance)
    = true.
Proof.
  assert (pstate (_internal tx_busy_instance) = ZETTA_STATE_TX_BUSY)
    as Hbusy by reflexivity.
  split; [|split; [exact Hbusy|]].
  - eexists _, _. split; [by vm_compute|]. split; [reflexivity|].
    eapply (proj1 C9_gates_share_one_field 1%nat empty_world
              (zetta_init blank (iface xor_crc)) MSG_PUBLISH [1; 2] 2).
    by vm_compute.
  - exact (proj2 (proj2 C9_gates_share_one_field) _ _ Hbusy).
Defined.

(** ** The length bound *)

(** C6.  In every state an instance reaches from [zetta_init] through
    [zetta_send], [zetta_ParseByte] and the completion callbacks, the stored
    frame length is at most MAX_PAYLOAD_SIZE.  A length byte above the bound
    ends the frame attempt: the call that takes it in GET_LEN returns
    ZETTA_ERROR, leaves the payload-ready flag and the stored length as they
    were and puts the machine back in WAIT_START, and so do the three calls
    that take start byte, type and such a length byte from WAIT_START.  A call
    that returns ZETTA_OK sets the payload-ready flag for a stored length
    within the bound. *)
Theorem C6_length_bound w packet :
  reachable w packet →
  0 ≤ len (frame (_internal packet)) ≤ MAX_PAYLOAD_SIZE
  ∧ (∀ fuel byte,
       rx_frame_state (_internal packet) = STATE_RX_GET_LEN →
       byte > MAX_PAYLOAD_SIZE →
       zetta_ParseByte (S fuel) w packet byte =
         Ret (log (EvOnError ZETTA_ERROR_PAYLOAD_TOO_LARGE) w,
              upd (set_rx_frame_state STATE_RX_WAIT_START)
                (upd (set_error ZETTA_ERROR_PAYLOAD_TOO_LARGE) packet),
              ZETTA_ERROR))
  ∧ (∀ fuel ty byte,
       rx_frame_state (_internal packet) = STATE_RX_WAIT_START →
       byte > MAX_PAYLOAD_SIZE →
       ∃ w' packet',
         feed_bytes (S fuel) w packet [START_BYTE; ty; byte] =
           Ret (w', packet', [ZETTA_ERROR; ZETTA_ERROR; ZETTA_ERROR])
         ∧ payload_ready (_internal packet') = payload_ready (_internal packet)
         ∧ len (frame (_internal packet')) = len (frame (_internal packet))
         ∧ rx_frame_state (_internal packet') = STATE_RX_WAIT_START)
  ∧ (∀ fuel byte w' packet',
       zetta_ParseByte fuel w packet byte = Ret (w', packet', ZETTA_OK) →
       payload_ready (_internal packet') = 1
       ∧ 0 ≤ len (frame (_internal packet')) ≤ MAX_PAYLOAD_SIZE).
Proof.
  intros Hreach.
  destruct (reachable_invariant _ _ Hreach)
    as (Hh & Hpl & Hlen & Hg & Hrx & Hidx0 & Hidx).
  split; [done|]. split; [|split].
  - intros fuel byte Hst Hb.
    rewrite ParseByte_GET_LEN_too_large by done.
    by rewrite call_OnError_default.
  - intros fuel ty byte Hst Hb.
    rewrite feed_bytes_cons, ParseByte_WAIT_START_hit by done. cbn [bind].
    rewrite feed_bytes_cons, ParseByte_GET_TYPE by done. cbn [bind].
    rewrite feed_bytes_cons, ParseByte_GET_LEN_too_large by done.
    rewrite call_OnError_default by done. cbn [bind feed_bytes].
    eexists _, _. split; [reflexivity|]. by fields.
  - intros fuel byte w' packet' [_ Hstep]%ParseByte_Ret_step.
    inversion Hstep; subst. by fields.
Qed.

Lemma C6_witness :
  reachable empty_world get_len_instance
  ∧ 0 ≤ len (frame (_internal get_len_instance)) ≤ MAX_PAYLOAD_SIZE
  ∧ zetta_ParseByte 1 empty_world get_len_instance 200 =
      Ret (log (EvOnError ZETTA_ERROR_PAYLOAD_TOO_LARGE) empty_world,
           upd (set_rx_frame_state STATE_RX_WAIT_START)
             (upd (set_error ZETTA_ERROR_PAYLOAD_TOO_LARGE) get_len_instance),
           ZETTA_ERROR).
Proof.
  assert (reachable empty_world get_len_instance) as Hreach.
  { apply (reach_call empty_world get_type_instance 1
             (call_ParseByte MSG_PUBLISH) _ _ ZETTA_ERROR);
      [|by compute|reflexivity].
    apply (reach_call empty_world (zetta_init blank (iface xor_crc)) 1
             (call_ParseByte START_BYTE) _ _ ZETTA_ERROR);
      [|by compute|reflexivity].
    apply reach_init. }
  split; [exact Hreach|].
  destruct (C6_length_bound empty_world get_len_instance Hreach)
    as (Hlen & Hbig & _).
  split; [exact Hlen|].
  apply (Hbig 0%nat 200); reflexivity.
Defined.

(** ** Error recovery *)

Lemma compute_crc_calls w packet w' v :
  zetta_compute_crc w packet = Ret (w', v) → calls w' = calls w.
Proof.
  unfold zetta_compute_crc. destruct (bool_decide _); [|done].
  by intros [= <- _].
Qed.

(** What one returning call does to the error record and the call log, with
    the library's error handler installed: either it records and reports no
    error, or it records one of the five receive errors, reports it to the
    handler before returning ZETTA_ERROR, and leaves the machine in
    WAIT_START with the frame's type, length and payload, the payload-ready
    flag, the gate field and the interface untouched. *)
Lemma ParseByte_error_or_not fuel w packet byte w' packet' r :
  OnError (interface packet) = OnError_zetta_error_manager →
  zetta_ParseByte fuel w packet byte = Ret (w', packet', r) →
  (calls w' = calls w
   ∧ error (_internal packet') = error (_internal packet))
  ∨ (∃ e,
       In e [ZETTA_ERROR_INVALID_START; ZETTA_ERROR_PAYLOAD_TOO_LARGE;
             ZETTA_ERROR_CRC_MISMATCH; ZETTA_ERROR_INVALID_STOP;
             ZETTA_FRAME_ERROR]
       ∧ calls w' = calls w ++ [EvOnError e]
       ∧ error (_internal packet') = e
       ∧ r = ZETTA_ERROR
       ∧ rx_frame_state (_internal packet') = STATE_RX_WAIT_START
       ∧ type (frame (_internal packet')) = type (frame (_internal packet))
       ∧ len (frame (_internal packet')) = len (frame (_internal packet))
       ∧ payload (frame (_internal packet'))
         = payload (frame (_internal packet))
       ∧ payload_ready (_internal packet')
         = payload_ready (_internal packet)
       ∧ pstate (_internal packet') = pstate (_internal packet)
       ∧ interface packet' = interface packet).
Proof.
  intros Hh [_ Hstep]%ParseByte_Ret_step.
  inversion Hstep; subst;
    repeat match goal with
    | x := _ |- _ => subst x
    | H : call_OnError _ _ _ = Ret _ |- _ =>
        rewrite call_OnError_default in H by done; injection H as <- <-
    | H : zetta_compute_crc _ _ = Ret _ |- _ => apply compute_crc_calls in H
    | |- context [if ?c then _ else _] => destruct c
    end;
    fields;
    try match goal with H : calls _ = calls _ |- _ => rewrite H end;
    first [ by left
          | right; eexists; split; [|by repeat split]; simpl; auto 10 ].
Qed.

Lemma frame_received_fields ty pl c packet :
  let i := _internal (frame_received ty pl c packet) in
  type (frame i) = ty
  ∧ len (frame i) = Z.of_nat (length pl)
  ∧ take (length pl) (payload (frame i)) = pl
  ∧ crc (frame i) = c
  ∧ payload_ready i = 1
  ∧ rx_frame_state i = STATE_RX_WAIT_START.
Proof.
  unfold frame_received, frame_body_received. fields.
  by rewrite take_app_length.
Qed.


(** ** The payload-ready flag and the accessors *)

(** C10, as the code has it.  [zetta_init] clears the payload-ready flag; a
    [zetta_ParseByte] call that returns ZETTA_OK sets it to 1; with the
    library's error handler installed no other returning call changes it:
    not a [zetta_ParseByte] call that returns ZETTA_ERROR, not [zetta_send],
    not a completion callback.  While the flag is set the accessors read the
    instance's one frame buffer as it stands: [Zetta_GetType] returns the
    stored type and [Zetta_GetPayload] copies the first stored-length bytes
    of the stored payload.  A [zetta_ParseByte] call that reports an error
    leaves what they return as it was just before that call.  While the flag
    is clear [Zetta_GetPayload] leaves the destination as it was and
    [Zetta_GetType] returns MSG_ACK. *)
Theorem C10_payload_ready_latches :
  (∀ packet itf, payload_ready (_internal (zetta_init packet itf)) = 0)
  ∧ (∀ fuel w packet byte w' packet' r,
       OnError (interface packet) = OnError_zetta_error_manager →
       zetta_ParseByte fuel w packet byte = Ret (w', packet', r) →
       (r = ZETTA_OK ∧ payload_ready (_internal packet') = 1)
       ∨ (r = ZETTA_ERROR
          ∧ payload_ready (_internal packet') = payload_ready (_internal packet)))
  ∧ (∀ fuel w packet byte w' packet' r,
       OnError (interface packet) = OnError_zetta_error_manager →
       zetta_ParseByte fuel w packet byte = Ret (w', packet', r) →
       calls w' ≠ calls w →
       Zetta_GetType packet' = Zetta_GetType packet
       ∧ ∀ pDest, Zetta_GetPayload packet' pDest = Zetta_GetPayload packet pDest)
  ∧ (∀ fuel w packet ty pData n w' packet' r,
       OnError (interface packet) = OnError_zetta_error_manager →
       0 ≤ n →
       zetta_send fuel w packet ty pData n = Ret (w', packet', r) →
       payload_ready (_internal packet') = payload_ready (_internal packet))
  ∧ (∀ packet,
       payload_ready (_internal (zetta_recieve_cplt_clb packet))
       = payload_ready (_internal packet)
       ∧ payload_ready (_internal (zetta_transmit_cplt_clb packet))
         = payload_ready (_internal packet))
  ∧ (∀ packet pDest,
       payload_ready (_internal packet) ≠ 0 →
       Zetta_GetType packet = type (frame (_internal packet))
       ∧ Zetta_GetPayload packet pDest =
           memcpy pDest 0 (payload (frame (_internal packet)))
                  (Z.to_nat (len (frame (_internal packet)))))
  ∧ (∀ packet pDest,
       payload_ready (_internal packet) = 0 →
       Zetta_GetType packet = MSG_ACK
       ∧ Zetta_GetPayload packet pDest = Ret pDest).
Proof.
  repeat split.
  - intros fuel w packet byte w' packet' r Hh Hr.
    destruct (ParseByte_error_or_not _ _ _ _ _ _ _ Hh Hr)
      as [_|(e & _ & _ & _ & -> & _ & _ & _ & _ & Hrdy & _)]; [|by right].
    apply ParseByte_Ret_step in Hr as [_ Hstep].
    inversion Hstep; subst;
      repeat match goal with
      | x := _ |- _ => subst x
      | H : call_OnError _ _ _ = Ret _ |- _ =>
          rewrite call_OnError_default in H by done; injection H as <- <-
      | |- context [if ?c then _ else _] => destruct c
      end; fields; by (left + right).
  - destruct (ParseByte_error_or_not _ _ _ _ _ _ _ H H0)
      as [[Hq _]|(e & _ & _ & _ & _ & _ & Hty & Hlen & Hpl & Hrdy & _)];
      [done|].
    unfold Zetta_GetType. by rewrite Hrdy, Hty.
  - intros pDest.
    destruct (ParseByte_error_or_not _ _ _ _ _ _ _ H H0)
      as [[Hq _]|(e & _ & _ & _ & _ & _ & Hty & Hlen & Hpl & Hrdy & _)];
      [done|].
    unfold Zetta_GetPayload. by rewrite Hrdy, Hlen, Hpl.
  - intros fuel w packet ty pData n w' packet' r Hh Hn Hr.
    destruct (send_Ret_inv _ _ _ _ _ _ _ _ _ Hn Hr)
      as [_ [(_ & Hc & _)|(_ & _ & _ & _ & -> & _)]]; [|done].
    rewrite call_OnError_default in Hc by done. by injection Hc as <- <-.
  - unfold Zetta_GetType. by apply Z.eqb_neq in H as ->.
  - unfold Zetta_GetPayload. by apply Z.eqb_neq in H as ->.
  - unfold Zetta_GetType. by rewrite H.
  - unfold Zetta_GetPayload. by rewrite H.
Qed.

Lemma C10_witness :
  OnError (interface (zetta_init blank (iface xor_crc)))
    = OnError_zetta_error_manager
  ∧ zetta_ParseByte 1 empty_world (zetta_init blank (iface xor_crc)) 0x55 =
      Ret (log (EvOnError ZETTA_ERROR_INVALID_START) empty_world,
           upd (set_error ZETTA_ERROR_INVALID_START)
             (zetta_init blank (iface xor_crc)),
           ZETTA_ERROR)
  ∧ payload_ready (_internal (zetta_init blank (iface xor_crc))) = 0
  ∧ (ZETTA_ERROR = ZETTA_OK
     ∧ payload_ready (_internal (upd (set_error ZETTA_ERROR_INVALID_START)
                                   (zetta_init blank (iface xor_crc)))) = 1
     ∨ ZETTA_ERROR = ZETTA_ERROR
       ∧ payload_ready (_internal (upd (set_error ZETTA_ERROR_INVALID_START)
                                     (zetta_init blank (iface xor_crc))))
         = payload_ready (_internal (zetta_init blank (iface xor_crc))))
  ∧ Zetta_GetType (zetta_init blank (iface xor_crc)) = MSG_ACK
  ∧ Zetta_GetPayload (zetta_init blank (iface xor_crc)) [9; 9] = Ret [9; 9].
Proof.
  assert (OnError (interface (zetta_init blank (iface xor_crc)))
          = OnError_zetta_error_manager) as Hh by reflexivity.
  assert (zetta_ParseByte 1 empty_world (zetta_init blank (iface xor_crc)) 0x55 =
            Ret (log (EvOnError ZETTA_ERROR_INVALID_START) empty_world,
                 upd (set_error ZETTA_ERROR_INVALID_START)
                   (zetta_init blank (iface xor_crc)),
                 ZETTA_ERROR)) as Hr by reflexivity.
  destruct C10_payload_ready_latches
    as (Hinit & Hparse & _ & _ & _ & _ & Hclear).
  split; [exact Hh|]. split; [exact Hr|]. split; [apply Hinit|].
  split; [exact (Hparse _ _ _ _ _ _ _ Hh Hr)|].
  apply Hclear, Hinit.
Defined.

(** C10 as stated fails: a frame that is dropped for its checksum after a
    frame has been completed leaves the flag set, and the accessors then
    return the type and the payload of the dropped frame, not those of the
    completed one. *)
Lemma C10_counterexample :
  ∃ w1 p1 w2 p2,
    feed_bytes 1 empty_world (zetta_init blank (iface xor_crc)) intact_frame
      = Ret (w1, p1, replicate 6 ZETTA_ERROR ++ [ZETTA_OK])
    ∧ Zetta_GetType p1 = MSG_PUBLISH
    ∧ Zetta_GetPayload p1 [0; 0] = Ret [1; 2]
    ∧ feed_bytes 1 w1 p1 corrupt_frame = Ret (w2, p2, replicate 7 ZETTA_ERROR)
    ∧ calls w2 = [EvOnError ZETTA_ERROR_CRC_MISMATCH]
    ∧ payload_ready (_internal p2) = 1
    ∧ Zetta_GetType p2 = MSG_SUBSCRIBE
    ∧ Zetta_GetPayload p2 [0; 0] = Ret [3; 4].
Proof.
  eexists _, _, _, _.
  do 7 (split; [vm_compute; reflexivity|]).
  vm_compute; reflexivity.
Qed.

(** ** Checksum verification and the round trip *)

(** The verdict on the stop byte: the frame is reported exactly when the
    checksum value, at its full 32-bit width, equals the stored checksum
    byte. *)
Lemma GET_STOP_verdict fuel w packet :
  pstate (_internal packet) ≠ ZETTA_STATE_RX_BUSY →
  rx_frame_state (_internal packet) = STATE_RX_GET_STOP →
  OnError (interface packet) = OnError_zetta_error_manager →
  0 ≤ len (frame (_internal packet)) ≤ MAX_PAYLOAD_SIZE →
  (Z.to_nat (len (frame (_internal packet)))
     ≤ length (payload (frame (_internal packet))))%nat →
  let f := frame (_internal packet) in
  let v := wrap32 (computeCRC (interface packet)
                     (type f :: len f :: take (Z.to_nat (len f)) (payload f))) in
  ∃ w' packet',
    zetta_ParseByte (S fuel) w packet STOP_BYTE =
      Ret (w', packet', if v =? crc f then ZETTA_OK else ZETTA_ERROR)
    ∧ payload_ready (_internal packet') =
        (if v =? crc f then 1 else payload_ready (_internal packet))
    ∧ calls w' =
        (if v =? crc f then calls w
         else calls w ++ [EvOnError ZETTA_ERROR_CRC_MISMATCH]).
Proof.
  intros Hg Hst Hh Hlen Hpl f v.
  rewrite ParseByte_GET_STOP_hit by done. cbv zeta.
  rewrite compute_crc_span by done. cbv zeta. cbn [bind]. fields.
  fold f. fold v. destruct (v =? crc f).
  - eexists _, _. split; [reflexivity|]. by fields.
  - rewrite call_OnError_default by done. cbn [bind].
    eexists _, _. split; [reflexivity|]. by fields.
Qed.

Lemma length_wire_frame ty pl c : length (wire_frame ty pl c) = (length pl + 5)%nat.
Proof. unfold wire_frame. rewrite !length_app. simpl. lia. Qed.

(** The bytes the transport is handed by a send are the frame's. *)
Lemma sent_bytes_after_send w f ty pl v :
  last (calls (world_after_send w f ty pl v))
    = Some (EvSend f (tx_buf (world_after_send w f ty pl v))
                   (Z.of_nat (length pl) + 5))
  ∧ sent_bytes (EvSend f (tx_buf (world_after_send w f ty pl v))
                       (Z.of_nat (length pl) + 5))
    = wire_frame ty pl (wrap8 v).
Proof.
  unfold world_after_send. fields. split; [by rewrite last_snoc|].
  unfold sent_bytes.
  apply take_app_length'. rewrite length_wire_frame. lia.
Qed.

Lemma frame_crc_range f ty pl : 0 ≤ frame_crc f ty pl < 2 ^ 32.
Proof. unfold frame_crc, wrap32. by apply Z.mod_pos_bound. Qed.

(** The round trip: the frame a send produces is reported by a freshly
    initialized receiver exactly when the checksum value fits in a byte;
    when it does not, the byte on the wire is the value truncated, the
    receiver compares it with the value at full width, and the frame is
    dropped as corrupt. *)
Lemma round_trip_verdict fuel w tx rx0 itf ty pl :
  pstate (_internal tx) ≠ ZETTA_STATE_TX_BUSY →
  Z.of_nat (length pl) ≤ MAX_PAYLOAD_SIZE →
  (length pl ≤ length (payload (frame (_internal tx))))%nat →
  computeCRC itf = computeCRC (interface tx) →
  let v := frame_crc (computeCRC itf) ty pl in
  let w1 := world_after_send w (send (interface tx)) ty pl v in
  let rx := zetta_init rx0 itf in
  zetta_send (S fuel) w tx ty pl (Z.of_nat (length pl))
    = Ret (w1, instance_after_send ty pl v tx, ZETTA_OK)
  ∧ feed_bytes (S fuel) w1 rx (wire_frame ty pl (wrap8 v)) =
      (if v <? 256
       then Ret (set_dbg_crc_val v w1, frame_received ty pl v rx,
                 replicate (4 + length pl) ZETTA_ERROR ++ [ZETTA_OK])
       else Ret (log (EvOnError ZETTA_ERROR_CRC_MISMATCH)
                   (set_dbg_crc_val v w1),
                 frame_rejected ty pl (wrap8 v) rx,
                 replicate (5 + length pl) ZETTA_ERROR)).
Proof.
  intros Hg Hmax Hlen Hcrc v w1 rx.
  pose proof (frame_crc_range (computeCRC itf) ty pl) as Hv. fold v in Hv.
  assert (length (payload (frame (_internal rx))) = 25%nat) as Hrx by done.
  unfold MAX_PAYLOAD_SIZE in Hmax.
  split.
  - rewrite send_ok; rewrite ?Nat2Z.id, ?firstn_all;
      [|done|unfold MAX_PAYLOAD_SIZE; lia|lia|lia].
    unfold w1, v. by rewrite Hcrc.
  - destruct (Z.ltb_spec v 256) as [Hsmall|Hwide].
    + rewrite wrap8_small by lia.
      by apply feed_frame_accept; [| |unfold MAX_PAYLOAD_SIZE|rewrite Hrx; lia|].
    + apply feed_frame_reject;
        [done|done|done|by unfold MAX_PAYLOAD_SIZE|rewrite Hrx; lia|].
      change (frame_crc (computeCRC (interface rx)) ty pl) with v.
      pose proof (Z.mod_pos_bound v (2 ^ 8)) as Hw. unfold wrap8. lia.
Qed.

(** C1, run on the code.  [sum_crc] returns the 32-bit sum of the bytes it is
    handed.  Sending type MSG_PUBLISH with the two payload bytes 255, 255
    hands the transport the seven bytes AA 01 02 FF FF 01 BC: the checksum
    value is 513 and the byte on the wire is 513 truncated.  Fed to a freshly
    initialized instance with the same checksum function, the seven bytes
    complete no frame: every call returns ZETTA_ERROR, the last one after
    reporting a checksum mismatch, and the payload-ready flag stays clear. *)
Theorem C1_round_trip_lost_on_wide_checksum :
  ∃ w1 tx' buf w2 rx',
    zetta_send 1 empty_world (zetta_init blank (iface sum_crc))
               MSG_PUBLISH [255; 255] 2 = Ret (w1, tx', ZETTA_OK)
    ∧ calls w1 = [EvSend 1%nat buf 7]
    ∧ sent_bytes (EvSend 1%nat buf 7) = [0xAA; 1; 2; 255; 255; 1; 0xBC]
    ∧ sum_crc [1; 2; 255; 255] = 513
    ∧ feed_bytes 1 w1 (zetta_init blank (iface sum_crc))
                 (sent_bytes (EvSend 1%nat buf 7))
      = Ret (w2, rx', replicate 7 ZETTA_ERROR)
    ∧ calls w2 = calls w1 ++ [EvOnError ZETTA_ERROR_CRC_MISMATCH]
    ∧ error (_internal rx') = ZETTA_ERROR_CRC_MISMATCH
    ∧ payload_ready (_internal rx') = 0.
Proof.
  eexists _, _, _, _, _.
  do 7 (split; [vm_compute; reflexivity|]).
  vm_compute; reflexivity.
Qed.

(** C2, run on the code.  With [sum_crc], the instance that has taken
    AA 01 02 FF FF 01 waits in GET_STOP with checksum byte 1 stored; the
    checksum value of its type, length and payload is 513, which truncated
    to eight bits is 1, the stored byte.  On the stop byte the frame is
    nevertheless dropped: the call returns ZETTA_ERROR after reporting a
    checksum mismatch and the payload-ready flag stays clear. *)
Theorem C2_verification_compares_untruncated :
  ∃ w packet w' packet',
    feed_bytes 1 empty_world (zetta_init blank (iface sum_crc))
               [0xAA; 1; 2; 255; 255; 1]
      = Ret (w, packet, replicate 6 ZETTA_ERROR)
    ∧ rx_frame_state (_internal packet) = STATE_RX_GET_STOP
    ∧ crc (frame (_internal packet)) = 1
    ∧ computeCRC (interface packet)
        (type (frame (_internal packet)) :: len (frame (_internal packet))
         :: take 2 (payload (frame (_internal packet)))) = 513
    ∧ wrap8 513 = crc (frame (_internal packet))
    ∧ zetta_ParseByte 1 w packet STOP_BYTE = Ret (w', packet', ZETTA_ERROR)
    ∧ calls w' = [EvOnError ZETTA_ERROR_CRC_MISMATCH]
    ∧ payload_ready (_internal packet') = 0.
Proof.
  eexists _, _, _, _.
  do 7 (split; [vm_compute; reflexivity|]).
  vm_compute; reflexivity.
Qed.

(** * Further properties of the library *)

(** ** What a send leaves behind *)

(** The transmit buffer and the call log after a send. *)
Lemma send_layout fuel w packet ty pData n :
  pstate (_internal packet) ≠ ZETTA_STATE_TX_BUSY →
  0 ≤ n ≤ MAX_PAYLOAD_SIZE →
  (Z.to_nat n ≤ length pData)%nat →
  (Z.to_nat n ≤ length (payload (frame (_internal packet))))%nat →
  length (tx_buf w) = Z.to_nat MAX_ZETTA_FRAME_SIZE →
  ∃ w' packet',
    zetta_send (S fuel) w packet ty pData n = Ret (w', packet', ZETTA_OK)
    ∧ calls w' = calls w ++ [EvSend (send (interface packet)) (tx_buf w') (n + 5)]
    ∧ buf_tx_size w' = n + 5
    ∧ take (Z.to_nat (n + 5)) (tx_buf w') =
        [START_BYTE; ty; n] ++ take (Z.to_nat n) pData
        ++ [wrap8 (wrap32 (computeCRC (interface packet)
                             (ty :: n :: take (Z.to_nat n) pData)));
            STOP_BYTE]
    ∧ drop (Z.to_nat (n + 5)) (tx_buf w') = replicate (25 - Z.to_nat n) 0
    ∧ length (tx_buf w') = Z.to_nat MAX_ZETTA_FRAME_SIZE.
Proof.
  intros Hg Hn Hdata Hpl Hbuf.
  rewrite send_ok by done. cbv zeta.
  set (pl := take (Z.to_nat n) pData).
  assert (length pl = Z.to_nat n) as Hlen
    by (unfold pl; rewrite length_take; lia).
  unfold MAX_PAYLOAD_SIZE in Hn.
  assert (Z.of_nat (length pl) = n) as Hn' by lia.
  assert (drop 30 (tx_buf w) = []) as Hnil
    by (apply drop_ge; rewrite Hbuf; by compute).
  eexists _, _. split; [reflexivity|].
  unfold world_after_send. fields. rewrite Hnil, app_nil_r, Hn'.
  pose proof (length_wire_frame ty pl
    (wrap8 (frame_crc (computeCRC (interface packet)) ty pl))) as Hw.
  repeat split.
  - rewrite take_app_length' by lia. unfold wire_frame, frame_crc.
    by rewrite Hn'.
  - rewrite drop_app_length' by lia. by rewrite Hlen.
  - rewrite length_app, Hw, length_replicate. change (Z.to_nat _) with 30%nat. lia.
Qed.

(** A send of at most MAX_PAYLOAD_SIZE bytes that finds the transmit gate
    open returns ZETTA_OK and calls the transport once, with the transmit
    buffer and the size [len + 5].  The bytes handed over are the start byte,
    the type, the length, the first [len] bytes of the data, the checksum
    value truncated to a byte and the stop byte.  The 30-byte buffer holds
    zeroes after the frame: nothing of an earlier, longer frame is left in
    it. *)
Theorem send_wire_format fuel w packet ty pData n :
  pstate (_internal packet) ≠ ZETTA_STATE_TX_BUSY →
  0 ≤ n ≤ MAX_PAYLOAD_SIZE →
  (Z.to_nat n ≤ length pData)%nat →
  (Z.to_nat n ≤ length (payload (frame (_internal packet))))%nat →
  length (tx_buf w) = Z.to_nat MAX_ZETTA_FRAME_SIZE →
  ∃ w' packet',
    zetta_send (S fuel) w packet ty pData n = Ret (w', packet', ZETTA_OK)
    ∧ calls w' = calls w ++ [EvSend (send (interface packet)) (tx_buf w') (n + 5)]
    ∧ buf_tx_size w' = n + 5
    ∧ take (Z.to_nat (n + 5)) (tx_buf w') =
        [START_BYTE; ty; n] ++ take (Z.to_nat n) pData
        ++ [wrap8 (wrap32 (computeCRC (interface packet)
                             (ty :: n :: take (Z.to_nat n) pData)));
            STOP_BYTE]
    ∧ drop (Z.to_nat (n + 5)) (tx_buf w') = replicate (25 - Z.to_nat n) 0
    ∧ length (tx_buf w') = Z.to_nat MAX_ZETTA_FRAME_SIZE.
Proof.
  intros Hg Hn Hdata Hpl Hbuf.
  rewrite send_ok by done. cbv zeta.
  set (pl := take (Z.to_nat n) pData).
  assert (length pl = Z.to_nat n) as Hlen
    by (unfold pl; rewrite length_take; lia).
  unfold MAX_PAYLOAD_SIZE in Hn.
  assert (Z.of_nat (length pl) = n) as Hn' by lia.
  assert (drop 30 (tx_buf w) = []) as Hnil
    by (apply drop_ge; rewrite Hbuf; by compute).
  eexists _, _. split; [reflexivity|].
  unfold world_after_send. fields. rewrite Hnil, app_nil_r, Hn'.
  pose proof (length_wire_frame ty pl
    (wrap8 (frame_crc (computeCRC (interface packet)) ty pl))) as Hw.
  repeat split.
  - rewrite take_app_length' by lia. unfold wire_frame, frame_crc.
    by rewrite Hn'.
  - rewrite drop_app_length' by lia. by rewrite Hlen.
  - rewrite length_app, Hw, length_replicate. change (Z.to_nat _) with 30%nat. lia.
Qed.

Lemma send_wire_format_witness :
  ∃ w' packet',
    zetta_send 1 empty_world (zetta_init blank (iface xor_crc)) MSG_PUBLISH
               [0x10; 0x20; 0x30] 2 = Ret (w', packet', ZETTA_OK)
    ∧ take 7 (tx_buf w') = [0xAA; 1; 2; 0x10; 0x20; 0x33; 0xBC]
    ∧ drop 7 (tx_buf w') = replicate 23 0.
Proof.
  destruct (send_wire_format 0 empty_world (zetta_init blank (iface xor_crc))
              MSG_PUBLISH [0x10; 0x20; 0x30] 2)
    as (w' & p' & Hs & _ & _ & Ht & Hd & _);
    [discriminate|by compute|simpl; lia|simpl; lia|reflexivity|].
  by exists w', p'.
Defined.

(** The instance has one frame buffer for both directions.  A send that
    returns ZETTA_OK stores type, length and payload of the frame sent in it
    and leaves the receive state, the payload index, the payload-ready flag
    and the error field alone: on an instance whose payload-ready flag is set,
    the accessors return from then on the type and the payload just sent,
    not those of the frame received. *)
Theorem send_replaces_received_frame fuel w packet ty pData n w' packet' :
  0 ≤ n →
  zetta_send fuel w packet ty pData n = Ret (w', packet', ZETTA_OK) →
  let i := _internal packet in
  let i' := _internal packet' in
  rx_frame_state i' = rx_frame_state i
  ∧ index i' = index i
  ∧ payload_ready i' = payload_ready i
  ∧ error i' = error i
  ∧ interface packet' = interface packet
  ∧ type (frame i') = ty
  ∧ len (frame i') = n
  ∧ payload (frame i') =
      take (Z.to_nat n) pData ++ drop (Z.to_nat n) (payload (frame i))
  ∧ (payload_ready i ≠ 0 →
     Zetta_GetType packet' = ty
     ∧ ∀ pDest, (Z.to_nat n ≤ length pDest)%nat →
         Zetta_GetPayload packet' pDest =
           Ret (take (Z.to_nat n) pData ++ drop (Z.to_nat n) pDest)).
Proof.
  intros Hn Hr.
  destruct (send_Ret_inv _ _ _ _ _ _ _ _ _ Hn Hr)
    as [_ [(_ & _ & [=])|(Hmax & Hdata & Hpl & _ & -> & _)]].
  assert (length (take (Z.to_nat n) pData) = Z.to_nat n) as Hlen
    by (rewrite length_take; lia).
  cbv zeta. unfold instance_after_send. fields. rewrite Hlen.
  repeat split; try done; try lia.
  - unfold Zetta_GetType. fields. by apply Z.eqb_neq in H as ->.
  - intros pDest Hdest. unfold Zetta_GetPayload. fields.
    apply Z.eqb_neq in H as ->. cbn [negb].
    rewrite Nat2Z.id.
    rewrite memcpy_Ret; rewrite ?length_app, ?length_take, ?length_drop; [|lia|lia].
    cbn [take app Nat.add]. by rewrite take_app_length' by done.
Qed.

Lemma send_replaces_received_frame_witness :
  ∃ w1 p1 w2 p2,
    feed_bytes 1 empty_world (zetta_init blank (iface xor_crc)) intact_frame
      = Ret (w1, p1, replicate 6 ZETTA_ERROR ++ [ZETTA_OK])
    ∧ Zetta_GetType p1 = MSG_PUBLISH
    ∧ zetta_send 1 w1 p1 MSG_SUBSCRIBE [7; 8; 9] 3 = Ret (w2, p2, ZETTA_OK)
    ∧ Zetta_GetType p2 = MSG_SUBSCRIBE
    ∧ Zetta_GetPayload p2 [0; 0; 0] = Ret [7; 8; 9].
Proof.
  eexists _, _, _, _.
  split; [vm_compute; reflexivity|]. split; [vm_compute; reflexivity|].
  match goal with
  | |- ?S = _ ∧ _ =>
      let r := eval vm_compute in S in
      match r with
      | Ret (?w2, ?p2, _) =>
          assert (S = Ret (w2, p2, ZETTA_OK)) as Hs by (vm_compute; reflexivity)
      end
  end.
  split; [exact Hs|].
  match type of Hs with
  | zetta_send ?f ?w ?p ?ty ?d ?n = Ret (?w2, ?p2, _) =>
      destruct (send_replaces_received_frame f w p ty d n w2 p2)
        as (_ & _ & _ & _ & _ & _ & _ & _ & Hacc); [lia|exact Hs|];
      destruct Hacc as [Hty Hpl]; [by compute|]
  end.
  split; [exact Hty|]. apply (Hpl [0; 0; 0]). simpl. lia.
Defined.

(** ** The round trip *)

(** When the checksum value of a frame fits in a byte, what is sent is what
    is received: the bytes [zetta_send] hands the transport, fed in order to
    an instance that waits in WAIT_START with the same checksum function,
    complete a frame on the last byte, and the accessors then return the type
    sent and copy the payload sent. *)
Theorem round_trip_byte_checksum fuel w tx rx ty pl :
  pstate (_internal tx) ≠ ZETTA_STATE_TX_BUSY →
  Z.of_nat (length pl) ≤ MAX_PAYLOAD_SIZE →
  (length pl ≤ length (payload (frame (_internal tx))))%nat →
  pstate (_internal rx) ≠ ZETTA_STATE_RX_BUSY →
  rx_frame_state (_internal rx) = STATE_RX_WAIT_START →
  (length pl ≤ length (payload (frame (_internal rx))))%nat →
  computeCRC (interface rx) = computeCRC (interface tx) →
  frame_crc (computeCRC (interface tx)) ty pl < 256 →
  ∃ w1 tx' e w2 rx',
    zetta_send (S fuel) w tx ty pl (Z.of_nat (length pl))
      = Ret (w1, tx', ZETTA_OK)
    ∧ last (calls w1) = Some e
    ∧ length (sent_bytes e) = (3 + length pl + 2)%nat
    ∧ feed_bytes (S fuel) w1 rx (sent_bytes e)
      = Ret (w2, rx', replicate (4 + length pl) ZETTA_ERROR ++ [ZETTA_OK])
    ∧ payload_ready (_internal rx') = 1
    ∧ len (frame (_internal rx')) = Z.of_nat (length pl)
    ∧ Zetta_GetType rx' = ty
    ∧ ∀ pDest, (length pl ≤ length pDest)%nat →
        Zetta_GetPayload rx' pDest = Ret (pl ++ drop (length pl) pDest).
Proof.
  intros Hg Hmax Hlen Hgr Hst Hlenr Hcrc Hfit.
  set (v := frame_crc (computeCRC (interface tx)) ty pl) in *.
  pose proof (frame_crc_range (computeCRC (interface tx)) ty pl) as Hv.
  fold v in Hv.
  destruct (sent_bytes_after_send w (send (interface tx)) ty pl v)
    as [Hlast Hsent].
  eexists _, _, _, _, _. split.
  { rewrite send_ok; rewrite ?Nat2Z.id, ?firstn_all;
      [reflexivity|done|unfold MAX_PAYLOAD_SIZE in *; lia|lia|lia]. }
  fold v. split; [exact Hlast|]. rewrite Hsent, (wrap8_small v) by lia.
  split; [rewrite length_wire_frame; lia|]. split.
  { apply feed_frame_accept; try done. by rewrite Hcrc. }
  destruct (frame_received_fields ty pl v rx)
    as (Hty & Hl & Hp & _ & Hrdy & _).
  cbv zeta in *. repeat split; try done.
  intros pDest Hdest. unfold Zetta_GetPayload.
  rewrite Hrdy, Hl, Nat2Z.id. cbn [Z.eqb negb].
  rewrite memcpy_Ret;
    [|unfold frame_received, frame_body_received; fields;
      rewrite length_app; lia|lia].
  cbn [take app Nat.add]. by rewrite Hp.
Qed.

Lemma round_trip_byte_checksum_witness :
  ∃ w1 tx' e w2 rx',
    zetta_send 1 empty_world (zetta_init blank (iface xor_crc)) MSG_PUBLISH
               [0xAA; 0xBC; 0x00] 3 = Ret (w1, tx', ZETTA_OK)
    ∧ last (calls w1) = Some e
    ∧ feed_bytes 1 w1 (zetta_init blank (iface xor_crc)) (sent_bytes e)
      = Ret (w2, rx', replicate 7 ZETTA_ERROR ++ [ZETTA_OK])
    ∧ Zetta_GetType rx' = MSG_PUBLISH
    ∧ Zetta_GetPayload rx' [0; 0; 0; 0] = Ret [0xAA; 0xBC; 0x00; 0].
Proof.
  destruct (round_trip_byte_checksum 0 empty_world
              (zetta_init blank (iface xor_crc))
              (zetta_init blank (iface xor_crc)) MSG_PUBLISH [0xAA; 0xBC; 0x00])
    as (w1 & tx' & e & w2 & rx' & Hs & Hl & _ & Hf & _ & _ & Hty & Hpl);
    [discriminate|by compute|simpl; lia|discriminate|reflexivity|simpl; lia
    |reflexivity|by compute|].
  exists w1, tx', e, w2, rx'. repeat split; try done.
  apply (Hpl [0; 0; 0; 0]). simpl. lia.
Defined.

(** ** Streams of frames *)

Lemma frame_received_keeps ty pl c packet :
  let p' := frame_received ty pl c packet in
  interface p' = interface packet
  ∧ pstate (_internal p') = pstate (_internal packet)
  ∧ error (_internal p') = error (_internal packet)
  ∧ length (payload (frame (_internal p')))
    = (length pl + (length (payload (frame (_internal packet))) - length pl))%nat.
Proof.
  unfold frame_received, frame_body_received. fields.
  by rewrite length_app, length_drop.
Qed.

(** Two frames that arrive one right after the other are both completed:
    from WAIT_START, the bytes of two intact frames fed in order give ZETTA_OK
    on the stop byte of each and ZETTA_ERROR on every other byte, no error is
    reported, and the instance ends holding the second frame. *)
Theorem back_to_back_frames fuel w packet ty1 pl1 ty2 pl2 :
  pstate (_internal packet) ≠ ZETTA_STATE_RX_BUSY →
  rx_frame_state (_internal packet) = STATE_RX_WAIT_START →
  Z.of_nat (length pl1) ≤ MAX_PAYLOAD_SIZE →
  Z.of_nat (length pl2) ≤ MAX_PAYLOAD_SIZE →
  (Z.to_nat MAX_PAYLOAD_SIZE ≤ length (payload (frame (_internal packet))))%nat →
  let f := computeCRC (interface packet) in
  ∃ w' packet',
    feed_bytes (S fuel) w packet
        (wire_frame ty1 pl1 (frame_crc f ty1 pl1)
         ++ wire_frame ty2 pl2 (frame_crc f ty2 pl2)) =
      Ret (w', packet',
           (replicate (4 + length pl1) ZETTA_ERROR ++ [ZETTA_OK])
           ++ replicate (4 + length pl2) ZETTA_ERROR ++ [ZETTA_OK])
    ∧ calls w' = calls w
    ∧ payload_ready (_internal packet') = 1
    ∧ type (frame (_internal packet')) = ty2
    ∧ len (frame (_internal packet')) = Z.of_nat (length pl2)
    ∧ take (length pl2) (payload (frame (_internal packet'))) = pl2.
Proof.
  intros Hg Hst Hm1 Hm2 Hpl f. unfold MAX_PAYLOAD_SIZE in *.
  set (c1 := frame_crc f ty1 pl1). set (c2 := frame_crc f ty2 pl2).
  destruct (frame_received_keeps ty1 pl1 c1 packet) as (Hitf & Hps & _ & Hlen).
  destruct (frame_received_fields ty1 pl1 c1 packet)
    as (_ & _ & _ & _ & _ & Hst1).
  destruct (frame_received_fields ty2 pl2 c2 (frame_received ty1 pl1 c1 packet))
    as (Hty & Hl & Hp & _ & Hrdy & _).
  cbv zeta in *.
  eexists _, _. split.
  - rewrite feed_bytes_app, feed_frame_accept;
      [|done|done|unfold MAX_PAYLOAD_SIZE; lia|lia|done].
    cbn [bind]. rewrite feed_frame_accept;
      [|by rewrite Hps|done|unfold MAX_PAYLOAD_SIZE; lia|rewrite Hlen; lia
       |by rewrite Hitf].
    reflexivity.
  - by repeat split.
Qed.

Lemma back_to_back_frames_witness :
  ∃ w' packet',
    feed_bytes 1 empty_world (zetta_init blank (iface xor_crc))
      ([0xAA; 1; 2; 1; 2; 0; 0xBC] ++ [0xAA; 2; 0; 2; 0xBC]) =
      Ret (w', packet',
           (replicate 6 ZETTA_ERROR ++ [ZETTA_OK])
           ++ replicate 4 ZETTA_ERROR ++ [ZETTA_OK])
    ∧ type (frame (_internal packet')) = MSG_SUBSCRIBE
    ∧ len (frame (_internal packet')) = 0.
Proof.
  destruct (back_to_back_frames 0 empty_world (zetta_init blank (iface xor_crc))
              MSG_PUBLISH [1; 2] MSG_SUBSCRIBE [])
    as (w' & p' & Hf & _ & _ & Hty & Hl & _);
    [discriminate|reflexivity|by compute|by compute|vm_compute; lia|].
  by exists w', p'.
Defined.

(** A frame whose checksum byte is not the checksum value is dropped, and the
    receiver carries on: every call returns ZETTA_ERROR, the mismatch is
    reported once, on the stop byte, and the payload-ready flag is left as it
    was.  An intact frame that follows is completed; the error field still
    reads ZETTA_ERROR_CRC_MISMATCH then, since completing a frame does not
    clear it. *)
Theorem corrupt_frame_dropped fuel w packet ty pl c ty2 pl2 :
  pstate (_internal packet) ≠ ZETTA_STATE_RX_BUSY →
  rx_frame_state (_internal packet) = STATE_RX_WAIT_START →
  OnError (interface packet) = OnError_zetta_error_manager →
  Z.of_nat (length pl) ≤ MAX_PAYLOAD_SIZE →
  Z.of_nat (length pl2) ≤ MAX_PAYLOAD_SIZE →
  (Z.to_nat MAX_PAYLOAD_SIZE ≤ length (payload (frame (_internal packet))))%nat →
  c ≠ frame_crc (computeCRC (interface packet)) ty pl →
  ∃ w1 p1 w2 p2,
    feed_bytes (S fuel) w packet (wire_frame ty pl c)
      = Ret (w1, p1, replicate (5 + length pl) ZETTA_ERROR)
    ∧ calls w1 = calls w ++ [EvOnError ZETTA_ERROR_CRC_MISMATCH]
    ∧ payload_ready (_internal p1) = payload_ready (_internal packet)
    ∧ rx_frame_state (_internal p1) = STATE_RX_WAIT_START
    ∧ feed_bytes (S fuel) w1 p1
        (wire_frame ty2 pl2 (frame_crc (computeCRC (interface packet)) ty2 pl2))
      = Ret (w2, p2, replicate (4 + length pl2) ZETTA_ERROR ++ [ZETTA_OK])
    ∧ payload_ready (_internal p2) = 1
    ∧ type (frame (_internal p2)) = ty2
    ∧ take (length pl2) (payload (frame (_internal p2))) = pl2
    ∧ error (_internal p2) = ZETTA_ERROR_CRC_MISMATCH.
Proof.
  intros Hg Hst Hh Hm1 Hm2 Hpl Hc. unfold MAX_PAYLOAD_SIZE in *.
  set (p1 := frame_rejected ty pl c packet).
  assert (interface p1 = interface packet
          ∧ pstate (_internal p1) = pstate (_internal packet)
          ∧ rx_frame_state (_internal p1) = STATE_RX_WAIT_START
          ∧ payload_ready (_internal p1) = payload_ready (_internal packet)
          ∧ error (_internal p1) = ZETTA_ERROR_CRC_MISMATCH
          ∧ length (payload (frame (_internal p1)))
            = (length pl + (length (payload (frame (_internal packet)))
                            - length pl))%nat)
    as (Hitf & Hps & Hst1 & Hrdy1 & Herr1 & Hlen1).
  { unfold p1, frame_rejected, frame_body_received. fields.
    by rewrite length_app, length_drop. }
  set (c2 := frame_crc (computeCRC (interface packet)) ty2 pl2).
  destruct (frame_received_fields ty2 pl2 c2 p1)
    as (Hty & _ & Hp & _ & Hrdy & _).
  destruct (frame_received_keeps ty2 pl2 c2 p1) as (_ & _ & Herr & _).
  cbv zeta in *.
  eexists _, p1, _, _. split.
  { apply feed_frame_reject;
      [done|done|done|unfold MAX_PAYLOAD_SIZE; lia|lia|by intros Heq]. }
  repeat (split; [done|]). split.
  { apply feed_frame_accept;
      [by rewrite Hps|done|unfold MAX_PAYLOAD_SIZE; lia|rewrite Hlen1; lia
      |by rewrite Hitf]. }
  repeat (split; [done|]). by rewrite Herr.
Qed.

Lemma corrupt_frame_dropped_witness :
  ∃ w1 p1 w2 p2,
    feed_bytes 1 empty_world (zetta_init blank (iface xor_crc)) corrupt_frame
      = Ret (w1, p1, replicate 7 ZETTA_ERROR)
    ∧ calls w1 = [EvOnError ZETTA_ERROR_CRC_MISMATCH]
    ∧ payload_ready (_internal p1) = 0
    ∧ feed_bytes 1 w1 p1 intact_frame
      = Ret (w2, p2, replicate 6 ZETTA_ERROR ++ [ZETTA_OK])
    ∧ payload_ready (_internal p2) = 1
    ∧ error (_internal p2) = ZETTA_ERROR_CRC_MISMATCH.
Proof.
  destruct (corrupt_frame_dropped 0 empty_world
              (zetta_init blank (iface xor_crc)) MSG_SUBSCRIBE [3; 4] 0
              MSG_PUBLISH [1; 2])
    as (w1 & p1 & w2 & p2 & H1 & H2 & H3 & _ & H4 & H5 & _ & _ & H6);
    [discriminate|reflexivity|reflexivity|by compute|by compute
    |vm_compute; lia|by compute|].
  by exists w1, p1, w2, p2.
Defined.

(** ** Bytes outside a frame *)

(** In WAIT_START every byte other than the start byte is reported as an
    invalid start and changes nothing else. *)
Lemma feed_noise fuel bytes : ∀ w packet,
  pstate (_internal packet) ≠ ZETTA_STATE_RX_BUSY →
  rx_frame_state (_internal packet) = STATE_RX_WAIT_START →
  OnError (interface packet) = OnError_zetta_error_manager →
  Forall (λ b, b ≠ START_BYTE) bytes →
  ∃ w' packet',
    feed_bytes (S fuel) w packet bytes
      = Ret (w', packet', replicate (length bytes) ZETTA_ERROR)
    ∧ calls w' = calls w
                 ++ replicate (length bytes) (EvOnError ZETTA_ERROR_INVALID_START)
    ∧ tx_buf w' = tx_buf w
    ∧ interface packet' = interface packet
    ∧ pstate (_internal packet') = pstate (_internal packet)
    ∧ rx_frame_state (_internal packet') = STATE_RX_WAIT_START
    ∧ frame (_internal packet') = frame (_internal packet)
    ∧ index (_internal packet') = index (_internal packet)
    ∧ payload_ready (_internal packet') = payload_ready (_internal packet).
Proof.
  induction bytes as [|b bytes IH]; intros w packet Hg Hst Hh Hall.
  - eexists _, _. split; [reflexivity|]. simpl. by rewrite app_nil_r.
  - apply Forall_cons in Hall as [Hb Hall].
    rewrite feed_bytes_cons, ParseByte_WAIT_START_miss by done.
    rewrite call_OnError_default by done. cbn [bind].
    destruct (IH (log (EvOnError ZETTA_ERROR_INVALID_START) w)
                (zetta_error_manager
                   (upd (set_error ZETTA_ERROR_INVALID_START) packet)
                   ZETTA_ERROR_INVALID_START))
      as (w' & p' & -> & Hc & Ht & Hi & Hp & Hs & Hf & Hx & Hr); try done.
    cbn [bind]. eexists _, _. split; [reflexivity|].
    rewrite Hc, Ht, Hi, Hp, Hs, Hf, Hx, Hr. fields.
    rewrite <- app_assoc. by repeat split.
Qed.

(** Bytes that hold no start byte, arriving while the receiver waits for a
    frame, never start one: each is reported as InvalidStart, every call
    returns ZETTA_ERROR, and the receive state, the frame buffer and the
    payload-ready flag are as before. *)
Theorem noise_never_starts_a_frame fuel w packet bytes :
  pstate (_internal packet) ≠ ZETTA_STATE_RX_BUSY →
  rx_frame_state (_internal packet) = STATE_RX_WAIT_START →
  OnError (interface packet) = OnError_zetta_error_manager →
  Forall (λ b, b ≠ START_BYTE) bytes →
  ∃ w' packet',
    feed_bytes (S fuel) w packet bytes
      = Ret (w', packet', replicate (length bytes) ZETTA_ERROR)
    ∧ calls w' = calls w
                 ++ replicate (length bytes) (EvOnError ZETTA_ERROR_INVALID_START)
    ∧ rx_frame_state (_internal packet') = STATE_RX_WAIT_START
    ∧ frame (_internal packet') = frame (_internal packet)
    ∧ payload_ready (_internal packet') = payload_ready (_internal packet).
Proof.
  intros Hg Hst Hh Hall.
  destruct (feed_noise fuel bytes w packet Hg Hst Hh Hall)
    as (w' & p' & Hf & Hc & _ & _ & _ & Hs & Hfr & _ & Hr).
  by exists w', p'.
Qed.

Lemma noise_never_starts_a_frame_witness :
  ∃ w' packet',
    feed_bytes 1 empty_world (zetta_init blank (iface xor_crc))
      [0x00; 0xBC; 0xFF]
      = Ret (w', packet', replicate 3 ZETTA_ERROR)
    ∧ calls w' = replicate 3 (EvOnError ZETTA_ERROR_INVALID_START)
    ∧ rx_frame_state (_internal packet') = STATE_RX_WAIT_START
    ∧ payload_ready (_internal packet') = 0.
Proof.
  destruct (noise_never_starts_a_frame 0 empty_world
              (zetta_init blank (iface xor_crc)) [0x00; 0xBC; 0xFF])
    as (w' & p' & Hf & Hc & Hs & _ & Hr);
    [discriminate|reflexivity|reflexivity|by repeat constructor|].
  by exists w', p'.
Defined.

(** A rejected byte is not looked at again.  When the stop byte of a frame
    is missing and the next frame follows at once, the start byte of that
    frame is taken for the bad stop byte and reported as InvalidStop; unless
    another start byte occurs among its remaining bytes, the intact second
    frame is lost as well: no call returns ZETTA_OK and the payload-ready
    flag is as before. *)
Theorem frame_after_missing_stop_is_lost fuel w packet ty1 pl1 c1 ty2 pl2 c2 :
  pstate (_internal packet) ≠ ZETTA_STATE_RX_BUSY →
  rx_frame_state (_internal packet) = STATE_RX_WAIT_START →
  OnError (interface packet) = OnError_zetta_error_manager →
  Z.of_nat (length pl1) ≤ MAX_PAYLOAD_SIZE →
  (length pl1 ≤ length (payload (frame (_internal packet))))%nat →
  Forall (λ b, b ≠ START_BYTE) (ty2 :: Z.of_nat (length pl2) :: pl2 ++ [c2]) →
  ∃ w' packet',
    feed_bytes (S fuel) w packet
        (([START_BYTE; ty1; Z.of_nat (length pl1)] ++ pl1 ++ [c1])
         ++ wire_frame ty2 pl2 c2)
      = Ret (w', packet', replicate (9 + length pl1 + length pl2) ZETTA_ERROR)
    ∧ calls w' = calls w
                 ++ EvOnError ZETTA_ERROR_INVALID_STOP
                    :: replicate (4 + length pl2)
                         (EvOnError ZETTA_ERROR_INVALID_START)
    ∧ rx_frame_state (_internal packet') = STATE_RX_WAIT_START
    ∧ payload_ready (_internal packet') = payload_ready (_internal packet).
Proof.
  intros Hg Hst Hh Hmax Hlen Hall.
  assert (Forall (λ b, b ≠ START_BYTE)
            (ty2 :: Z.of_nat (length pl2) :: pl2 ++ [c2; STOP_BYTE])) as Hall'.
  { change [c2; STOP_BYTE] with ([c2] ++ [STOP_BYTE]).
    rewrite app_assoc, !app_comm_cons. apply Forall_app. split; [done|].
    by repeat constructor. }
  rewrite feed_bytes_app, feed_frame_body by done. cbn [bind].
  unfold wire_frame. cbn [app].
  rewrite feed_bytes_cons, ParseByte_GET_STOP_miss by done.
  rewrite call_OnError_default by done. cbn [bind].
  match goal with
  | |- context [feed_bytes _ ?w1 ?p1 _] =>
      destruct (feed_noise fuel
                  (ty2 :: Z.of_nat (length pl2) :: pl2 ++ [c2; STOP_BYTE]) w1 p1)
        as (w' & p' & -> & Hc & _ & _ & _ & Hs & _ & _ & Hr); try done
  end.
  cbn [bind]. eexists _, _. split.
  - change (ZETTA_ERROR :: replicate ?k ZETTA_ERROR)
      with (replicate (S k) ZETTA_ERROR).
    rewrite <- replicate_add. do 3 f_equal.
    cbn [length]. rewrite length_app. simpl. lia.
  - rewrite Hc, Hs, Hr. fields. rewrite <- app_assoc.
    cbn [length]. rewrite length_app. cbn [length app].
    replace (S (S (length pl2 + 2))) with (4 + length pl2)%nat by lia.
    by repeat split.
Qed.

Lemma frame_after_missing_stop_is_lost_witness :
  ∃ w' packet',
    feed_bytes 1 empty_world (zetta_init blank (iface xor_crc))
      ([0xAA; 1; 2; 1; 2; 0] ++ [0xAA; 2; 0; 2; 0xBC])
      = Ret (w', packet', replicate 11 ZETTA_ERROR)
    ∧ payload_ready (_internal packet') = 0.
Proof.
  destruct (frame_after_missing_stop_is_lost 0 empty_world
              (zetta_init blank (iface xor_crc)) 1 [1; 2] 0 2 [] 2)
    as (w' & p' & Hf & _ & _ & Hr);
    [discriminate|reflexivity|reflexivity|by compute|simpl; lia
    |by repeat constructor|].
  by exists w', p'.
Defined.

(** ** The result code *)

(** [zetta_ParseByte] returns ZETTA_OK or ZETTA_ERROR and nothing else: a byte
    taken into a frame in progress and a byte rejected give the same result
    code.  ZETTA_OK is returned only for the stop byte taken in GET_STOP, and
    only when the stored checksum byte equals the checksum value of the
    stored type, length and payload; the frame is then left as it was but for
    the stop byte, the payload-ready flag is 1 and the machine is back in
    WAIT_START. *)
Theorem ParseByte_OK_is_checked fuel w packet byte w' packet' r :
  is_byte (len (frame (_internal packet))) →
  zetta_ParseByte fuel w packet byte = Ret (w', packet', r) →
  (r = ZETTA_OK ∨ r = ZETTA_ERROR)
  ∧ (r = ZETTA_OK →
     let f := frame (_internal packet) in
     rx_frame_state (_internal packet) = STATE_RX_GET_STOP
     ∧ byte = STOP_BYTE
     ∧ crc f = wrap32 (computeCRC (interface packet)
                         (type f :: len f
                          :: take (Z.to_nat (len f)) (payload f)))
     ∧ frame (_internal packet') = set_stop STOP_BYTE f
     ∧ payload_ready (_internal packet') = 1
     ∧ rx_frame_state (_internal packet') = STATE_RX_WAIT_START
     ∧ calls w' = calls w).
Proof.
  intros Hlen [_ Hstep]%ParseByte_Ret_step.
  inversion Hstep; subst; (split; [by (left + right)|]); try done.
  intros _. subst packet1. cbv zeta.
  match goal with H : zetta_compute_crc _ _ = _ |- _ => rename H into Hc end.
  unfold zetta_compute_crc in Hc. fields in Hc.
  destruct (bool_decide _) in Hc; [|done].
  unfold is_byte in Hlen.
  rewrite (wrap32_small (1 + 1 + _)) in Hc by lia.
  replace (Z.to_nat (1 + 1 + len (frame (_internal packet))))
    with (S (S (Z.to_nat (len (frame (_internal packet)))))) in Hc by lia.
  cbn [take] in Hc. injection Hc as <- Hcrc. fields.
  by repeat split.
Qed.

Lemma ParseByte_OK_is_checked_witness :
  ∃ w packet w' packet',
    feed_bytes 1 empty_world (zetta_init blank (iface xor_crc))
               [0xAA; 1; 2; 1; 2; 0]
      = Ret (w, packet, replicate 6 ZETTA_ERROR)
    ∧ zetta_ParseByte 1 w packet 0xBC = Ret (w', packet', ZETTA_OK)
    ∧ crc (frame (_internal packet)) = wrap32 (xor_crc [1; 2; 1; 2])
    ∧ payload_ready (_internal packet') = 1.
Proof.
  eexists _, _, _, _.
  split; [vm_compute; reflexivity|].
  match goal with
  | |- ?S = _ ∧ _ =>
      let r := eval vm_compute in S in
      match r with
      | Ret (?w2, ?p2, _) =>
          assert (S = Ret (w2, p2, ZETTA_OK)) as Hs by (vm_compute; reflexivity)
      end
  end.
  split; [exact Hs|].
  match type of Hs with
  | zetta_ParseByte ?f ?w ?p ?b = Ret (?w2, ?p2, _) =>
      destruct (ParseByte_OK_is_checked f w p b w2 p2 ZETTA_OK)
        as [_ Hok]; [by compute|exact Hs|];
      destruct (Hok eq_refl) as (_ & _ & Hcrc & _ & Hrdy & _)
  end.
  split; [exact Hcrc|exact Hrdy].
Defined.

(** ** Sends and the receive state *)

(** A send that is rejected for its length goes through the same error
    handler as the receive path, and the library's handler resets the receive
    state machine.  An intact frame whose stop byte is still to come when
    such a send is made on the instance is therefore lost: the stop byte is
    reported as InvalidStart, the call returns ZETTA_ERROR and the
    payload-ready flag is as it was before the frame.  The rejected send does
    not write the error field. *)
Theorem rejected_send_aborts_reception fuel w packet ty pl c ty' pData n :
  pstate (_internal packet) ≠ ZETTA_STATE_RX_BUSY →
  pstate (_internal packet) ≠ ZETTA_STATE_TX_BUSY →
  rx_frame_state (_internal packet) = STATE_RX_WAIT_START →
  OnError (interface packet) = OnError_zetta_error_manager →
  Z.of_nat (length pl) ≤ MAX_PAYLOAD_SIZE →
  (length pl ≤ length (payload (frame (_internal packet))))%nat →
  n > MAX_PAYLOAD_SIZE →
  ∃ w1 p1 w2 p2 w3 p3,
    feed_bytes (S fuel) w packet
        ([START_BYTE; ty; Z.of_nat (length pl)] ++ pl ++ [c])
      = Ret (w1, p1, replicate (4 + length pl) ZETTA_ERROR)
    ∧ rx_frame_state (_internal p1) = STATE_RX_GET_STOP
    ∧ zetta_send (S fuel) w1 p1 ty' pData n
      = Ret (w2, p2, ZETTA_ERROR_PAYLOAD_TOO_LARGE)
    ∧ rx_frame_state (_internal p2) = STATE_RX_WAIT_START
    ∧ error (_internal p2) = error (_internal packet)
    ∧ zetta_ParseByte (S fuel) w2 p2 STOP_BYTE = Ret (w3, p3, ZETTA_ERROR)
    ∧ calls w3 = calls w ++ [EvOnError ZETTA_ERROR_PAYLOAD_TOO_LARGE;
                             EvOnError ZETTA_ERROR_INVALID_START]
    ∧ payload_ready (_internal p3) = payload_ready (_internal packet).
Proof.
  intros Hg Hgt Hst Hh Hmax Hlen Hn.
  assert ((n >? MAX_PAYLOAD_SIZE) = true) as Hbig
    by (rewrite Z.gtb_ltb; apply Z.ltb_lt; lia).
  eexists _, _, _, _, _, _. split; [by apply feed_frame_body|].
  split; [done|]. split.
  { unfold zetta_send. rewrite gate_wait_pass by done. rewrite Hbig.
    rewrite call_OnError_default by done. reflexivity. }
  split; [done|]. split; [done|]. split.
  { rewrite ParseByte_WAIT_START_miss by done.
    rewrite call_OnError_default by done. reflexivity. }
  fields. rewrite <- app_assoc. by split.
Qed.

Lemma rejected_send_aborts_reception_witness :
  ∃ w1 p1 w2 p2 w3 p3,
    feed_bytes 1 empty_world (zetta_init blank (iface xor_crc))
               [0xAA; 1; 2; 1; 2; 0]
      = Ret (w1, p1, replicate 6 ZETTA_ERROR)
    ∧ zetta_send 1 w1 p1 MSG_PUBLISH [] 26
      = Ret (w2, p2, ZETTA_ERROR_PAYLOAD_TOO_LARGE)
    ∧ zetta_ParseByte 1 w2 p2 0xBC = Ret (w3, p3, ZETTA_ERROR)
    ∧ payload_ready (_internal p3) = 0.
Proof.
  destruct (rejected_send_aborts_reception 0 empty_world
              (zetta_init blank (iface xor_crc)) 1 [1; 2] 0 MSG_PUBLISH [] 26)
    as (w1 & p1 & w2 & p2 & w3 & p3 & H1 & _ & H2 & _ & _ & H3 & _ & H4);
    [discriminate|discriminate|reflexivity|reflexivity|by compute|simpl; lia
    |by compute|].
  by exists w1, p1, w2, p2, w3, p3.
Defined.

(** ** The batch feed *)

Lemma feed_bytes_length fuel bytes : ∀ w packet w' packet' rs,
  feed_bytes fuel w packet bytes = Ret (w', packet', rs) →
  length rs = length bytes.
Proof.
  induction bytes as [|b bytes IH]; intros w packet w' packet' rs.
  - by intros [= _ _ <-].
  - rewrite feed_bytes_cons.
    intros ([[w1 p1] r] & _ & Hk)%bind_Ret.
    apply bind_Ret in Hk as ([[w2 p2] rs2] & Hf & [= _ _ <-]).
    simpl. by rewrite (IH _ _ _ _ _ Hf).
Qed.

(** The loop over bytes none of which completes a frame runs to its end. *)
Lemma ProcessBuffer_from_quiet fuel bytes : ∀ w packet w' packet' rs pre post,
  feed_bytes fuel w packet bytes = Ret (w', packet', rs) →
  ZETTA_OK ∉ rs →
  ProcessBuffer_from fuel w packet (pre ++ bytes ++ post) (length pre)
                     (length bytes) = Ret (w', packet', ZETTA_ERROR).
Proof.
  induction bytes as [|b bytes IH]; intros w packet w' packet' rs pre post.
  - by intros [= <- <- _] _.
  - rewrite feed_bytes_cons.
    intros ([[w1 p1] r] & Hp & Hk)%bind_Ret Hno.
    apply bind_Ret in Hk as ([[w2 p2] rs2] & Hf & [= <- <- <-]).
    cbn [length ProcessBuffer_from].
    rewrite lookup_app_r, Nat.sub_diag by done. cbn [app lookup list_lookup].
    rewrite Hp. cbn [bind].
    destruct (decide (r = ZETTA_OK)) as [->|_];
      [exfalso; apply Hno; constructor|].
    specialize (IH w1 p1 w2 p2 rs2 (pre ++ [b]) post Hf).
    rewrite <- app_assoc, length_app, Nat.add_1_r in IH. apply IH.
    intros Hin. apply Hno. by constructor.
Qed.

(** The loop stops at the byte that completes a frame. *)
Lemma ProcessBuffer_from_frame fuel bytes :
  ∀ w packet w' packet' rs pre post remaining,
  feed_bytes fuel w packet bytes = Ret (w', packet', rs ++ [ZETTA_OK]) →
  ZETTA_OK ∉ rs →
  (length bytes ≤ remaining)%nat →
  ProcessBuffer_from fuel w packet (pre ++ bytes ++ post) (length pre)
                     remaining = Ret (w', packet', ZETTA_OK).
Proof.
  induction bytes as [|b bytes IH];
    intros w packet w' packet' rs pre post remaining.
  - intros [= _ _ Hrs]. by destruct rs.
  - rewrite feed_bytes_cons.
    intros ([[w1 p1] r] & Hp & Hk)%bind_Ret Hno Hrem.
    apply bind_Ret in Hk as ([[w2 p2] rs2] & Hf & [= <- <- Hrs]).
    destruct remaining as [|remaining]; [simpl in Hrem; lia|].
    cbn [ProcessBuffer_from].
    rewrite lookup_app_r, Nat.sub_diag by done. cbn [app lookup list_lookup].
    rewrite Hp. cbn [bind].
    destruct rs as [|r0 rs].
    + injection Hrs as -> ->. simpl.
      pose proof (feed_bytes_length _ _ _ _ _ _ _ Hf) as Hl.
      destruct bytes; [|done]. by injection Hf as <- <-.
    + injection Hrs as -> ->.
      destruct (decide (r0 = ZETTA_OK)) as [->|_];
        [exfalso; apply Hno; constructor|].
      specialize (IH w1 p1 w2 p2 rs (pre ++ [b]) post remaining Hf).
      rewrite <- app_assoc, length_app, Nat.add_1_r in IH. apply IH.
      * intros Hin. apply Hno. by constructor.
      * simpl in Hrem. lia.
Qed.

Lemma replicate_no_OK n : ZETTA_OK ∉ replicate n ZETTA_ERROR.
Proof. by intros [[=] _]%elem_of_replicate. Qed.

(** [zetta_ProcessBuffer] returns at the first completed frame.  Handed a
    buffer that starts with an intact frame, on an instance waiting in
    WAIT_START, it returns ZETTA_OK with that frame stored, and the instance
    is exactly as after the last byte of the frame: the bytes behind it in
    the buffer, a second frame included, have not been looked at. *)
Theorem ProcessBuffer_stops_at_first_frame fuel w packet ty pl rest :
  pstate (_internal packet) ≠ ZETTA_STATE_RX_BUSY →
  rx_frame_state (_internal packet) = STATE_RX_WAIT_START →
  Z.of_nat (length pl) ≤ MAX_PAYLOAD_SIZE →
  (length pl ≤ length (payload (frame (_internal packet))))%nat →
  let c := frame_crc (computeCRC (interface packet)) ty pl in
  zetta_ProcessBuffer (S fuel) w packet (wire_frame ty pl c ++ rest)
      (Z.of_nat (length (wire_frame ty pl c ++ rest)))
    = Ret (set_dbg_crc_val c w, frame_received ty pl c packet, ZETTA_OK)
  ∧ feed_bytes (S fuel) w packet (wire_frame ty pl c)
    = Ret (set_dbg_crc_val c w, frame_received ty pl c packet,
           replicate (4 + length pl) ZETTA_ERROR ++ [ZETTA_OK]).
Proof.
  intros Hg Hst Hmax Hlen c.
  assert (feed_bytes (S fuel) w packet (wire_frame ty pl c)
          = Ret (set_dbg_crc_val c w, frame_received ty pl c packet,
                 replicate (4 + length pl) ZETTA_ERROR ++ [ZETTA_OK])) as Hf
    by (by apply feed_frame_accept).
  split; [|done]. unfold zetta_ProcessBuffer. rewrite Nat2Z.id.
  apply (ProcessBuffer_from_frame _ _ _ _ _ _ _ [] rest _ Hf).
  - apply replicate_no_OK.
  - rewrite length_app. lia.
Qed.

Lemma ProcessBuffer_stops_at_first_frame_witness :
  ∃ w' packet',
    zetta_ProcessBuffer 1 empty_world (zetta_init blank (iface xor_crc))
      ([0xAA; 1; 2; 1; 2; 0; 0xBC] ++ [0xAA; 2; 0; 2; 0xBC]) 12
      = Ret (w', packet', ZETTA_OK)
    ∧ type (frame (_internal packet')) = MSG_PUBLISH
    ∧ rx_frame_state (_internal packet') = STATE_RX_WAIT_START.
Proof.
  destruct (ProcessBuffer_stops_at_first_frame 0 empty_world
              (zetta_init blank (iface xor_crc)) MSG_PUBLISH [1; 2]
              [0xAA; 2; 0; 2; 0xBC]) as [Hp _];
    [discriminate|reflexivity|by compute|simpl; lia|].
  eexists _, _. split; [exact Hp|]. by split.
Defined.

(** The receive state lives in the instance, not in the call: a frame that
    arrives cut in two buffers is completed by the second call.  The first
    call, handed a proper prefix of the frame's bytes, returns ZETTA_ERROR;
    the second, handed the remaining bytes, returns ZETTA_OK with the frame
    stored. *)
Theorem ProcessBuffer_resumes_across_calls fuel w packet ty pl (k : nat) :
  pstate (_internal packet) ≠ ZETTA_STATE_RX_BUSY →
  rx_frame_state (_internal packet) = STATE_RX_WAIT_START →
  Z.of_nat (length pl) ≤ MAX_PAYLOAD_SIZE →
  (length pl ≤ length (payload (frame (_internal packet))))%nat →
  (k < length pl + 5)%nat →
  let c := frame_crc (computeCRC (interface packet)) ty pl in
  let wire := wire_frame ty pl c in
  ∃ w1 p1,
    zetta_ProcessBuffer (S fuel) w packet (take k wire) (Z.of_nat k)
      = Ret (w1, p1, ZETTA_ERROR)
    ∧ zetta_ProcessBuffer (S fuel) w1 p1 (drop k wire)
        (Z.of_nat (length pl + 5 - k))
      = Ret (set_dbg_crc_val c w, frame_received ty pl c packet, ZETTA_OK).
Proof.
  intros Hg Hst Hmax Hlen Hk c wire.
  assert (feed_bytes (S fuel) w packet wire
          = Ret (set_dbg_crc_val c w, frame_received ty pl c packet,
                 replicate (4 + length pl) ZETTA_ERROR ++ [ZETTA_OK])) as Hf
    by (by apply feed_frame_accept).
  pose proof (length_wire_frame ty pl c) as Hw. fold wire in Hw.
  clearbody wire.
  remember (replicate (4 + length pl) ZETTA_ERROR) as rs eqn:Ers.
  rewrite <- (take_drop k wire), feed_bytes_app in Hf.
  apply bind_Ret in Hf as ([[w1 p1] rs1] & Hf1 & Hf2).
  apply bind_Ret in Hf2 as ([[w2 p2] rs2] & Hf2 & [= -> -> Hrs]).
  pose proof (feed_bytes_length _ _ _ _ _ _ _ Hf1) as Hl1.
  pose proof (feed_bytes_length _ _ _ _ _ _ _ Hf2) as Hl2.
  rewrite length_take in Hl1. rewrite length_drop in Hl2.
  assert (rs1 = replicate k ZETTA_ERROR
          ∧ rs2 = replicate (4 + length pl - k) ZETTA_ERROR ++ [ZETTA_OK])
    as [-> ->].
  { apply app_inj_1; [rewrite length_replicate; lia|].
    rewrite Hrs, Ers, app_assoc, <- replicate_add. do 2 f_equal. lia. }
  exists w1, p1. unfold zetta_ProcessBuffer. rewrite !Nat2Z.id. split.
  - pose proof (ProcessBuffer_from_quiet _ _ _ _ _ _ _ [] [] Hf1
                  (replicate_no_OK _)) as Hq.
    rewrite app_nil_r, length_take in Hq. cbn [app length] in Hq.
    by replace (k `min` length wire)%nat with k in Hq by lia.
  - pose proof (ProcessBuffer_from_frame _ _ _ _ _ _ _ [] []
                  (length pl + 5 - k) Hf2 (replicate_no_OK _)) as Hq.
    rewrite app_nil_r in Hq. cbn [app length] in Hq.
    apply Hq. rewrite length_drop. lia.
Qed.

Lemma ProcessBuffer_resumes_across_calls_witness :
  ∃ w1 p1 w2 p2,
    zetta_ProcessBuffer 1 empty_world (zetta_init blank (iface xor_crc))
      [0xAA; 1; 2; 1] 4 = Ret (w1, p1, ZETTA_ERROR)
    ∧ zetta_ProcessBuffer 1 w1 p1 [2; 0; 0xBC] 3 = Ret (w2, p2, ZETTA_OK)
    ∧ take 2 (payload (frame (_internal p2))) = [1; 2].
Proof.
  destruct (ProcessBuffer_resumes_across_calls 0 empty_world
              (zetta_init blank (iface xor_crc)) MSG_PUBLISH [1; 2] 4)
    as (w1 & p1 & H1 & H2);
    [discriminate|reflexivity|by compute|simpl; lia|simpl; lia|].
  eexists w1, p1, _, _. split; [exact H1|]. split; [exact H2|]. reflexivity.
Defined.

(** ** The receive interrupt of the sample application *)

Lemma ParseByte_keeps_gate fuel w packet byte w' packet' r :
  OnError (interface packet) = OnError_zetta_error_manager →
  zetta_ParseByte fuel w packet byte = Ret (w', packet', r) →
  pstate (_internal packet') = pstate (_internal packet)
  ∧ interface packet' = interface packet.
Proof.
  intros Hh [_ Hstep]%ParseByte_Ret_step.
  inversion Hstep; subst;
    repeat match goal with
    | x := _ |- _ => subst x
    | H : call_OnError _ _ _ = Ret _ |- _ =>
        rewrite call_OnError_default in H by done; injection H as <- <-
    | |- context [if ?c then _ else _] => destruct c
    end; by fields.
Qed.

Lemma recieve_cplt_clb_ready packet :
  pstate (_internal packet) = ZETTA_STATE_RX_READY →
  zetta_recieve_cplt_clb packet = packet.
Proof.
  destruct packet as [itf [ps idx f lbt err rx rdy]]. simpl. by intros ->.
Qed.

(** Interrupts for bytes that complete no frame do what the byte feed does
    and leave [metbj] alone. *)
Lemma rx_interrupts_quiet fuel bytes : ∀ w hzettarx metbj w' packet' rs,
  pstate (_internal hzettarx) = ZETTA_STATE_RX_READY →
  OnError (interface hzettarx) = OnError_zetta_error_manager →
  feed_bytes fuel w hzettarx bytes = Ret (w', packet', rs) →
  ZETTA_OK ∉ rs →
  rx_interrupts fuel w hzettarx metbj bytes = Ret (w', packet', metbj).
Proof.
  induction bytes as [|b bytes IH]; intros w hz metbj w' packet' rs Hps Hh.
  - by intros [= <- <- _] _.
  - rewrite feed_bytes_cons.
    intros ([[w1 p1] r] & Hp & Hk)%bind_Ret Hno.
    apply bind_Ret in Hk as ([[w2 p2] rs2] & Hf & [= <- <- <-]).
    destruct (ParseByte_keeps_gate _ _ _ _ _ _ _ Hh Hp) as [Hps1 Hitf1].
    cbn [rx_interrupts]. unfold HAL_UART_RxCpltCallback. rewrite Hp. cbn [bind].
    destruct (decide (r = ZETTA_OK)) as [->|_];
      [exfalso; apply Hno; constructor|].
    cbn [bind]. rewrite recieve_cplt_clb_ready by congruence.
    apply (IH _ _ _ _ _ rs2); [congruence|congruence|done|].
    intros Hin. apply Hno. by constructor.
Qed.

Lemma rx_interrupts_app fuel bs1 bs2 : ∀ w hzettarx metbj,
  rx_interrupts fuel w hzettarx metbj (bs1 ++ bs2) =
    do '(w, hzettarx, metbj) <- rx_interrupts fuel w hzettarx metbj bs1 ;;
    rx_interrupts fuel w hzettarx metbj bs2.
Proof.
  induction bs1 as [|b bs1 IH]; intros w hz metbj; [done|].
  cbn [app rx_interrupts].
  destruct (HAL_UART_RxCpltCallback fuel w hz b metbj) as [[[w1 p1] m1]| |];
    [|done|done].
  cbn [bind]. apply IH.
Qed.

(** The receive interrupt of the sample application copies the payload of a
    completed frame over the 13-byte object [metbj] without looking at its
    length.  For an intact frame of at most 13 payload bytes, the interrupts
    for its bytes leave the payload at the front of [metbj] and the rest of
    [metbj] as it was.  An intact frame of 14 to 25 payload bytes, which the
    protocol accepts, makes the copy run past the end of [metbj]. *)
Theorem rx_interrupt_copies_payload fuel w hzettarx metbj ty pl :
  pstate (_internal hzettarx) = ZETTA_STATE_RX_READY →
  rx_frame_state (_internal hzettarx) = STATE_RX_WAIT_START →
  OnError (interface hzettarx) = OnError_zetta_error_manager →
  Z.of_nat (length pl) ≤ MAX_PAYLOAD_SIZE →
  (length pl ≤ length (payload (frame (_internal hzettarx))))%nat →
  length metbj = sizeof_MetricPacket →
  let c := frame_crc (computeCRC (interface hzettarx)) ty pl in
  ((length pl ≤ sizeof_MetricPacket)%nat →
   rx_interrupts (S fuel) w hzettarx metbj (wire_frame ty pl c)
     = Ret (set_dbg_crc_val c w, frame_received ty pl c hzettarx,
            pl ++ drop (length pl) metbj))
  ∧ ((sizeof_MetricPacket < length pl)%nat →
     rx_interrupts (S fuel) w hzettarx metbj (wire_frame ty pl c) = Undefined).
Proof.
  intros Hps Hst Hh Hmax Hlen Hm c.
  assert (pstate (_internal hzettarx) ≠ ZETTA_STATE_RX_BUSY) as Hg
    by (by rewrite Hps).
  assert (rx_interrupts (S fuel) w hzettarx metbj (wire_frame ty pl c)
          = do metbj' <- Zetta_GetPayload (frame_received ty pl c hzettarx) metbj ;;
            Ret (set_dbg_crc_val c w, frame_received ty pl c hzettarx, metbj'))
    as ->.
  { unfold wire_frame.
    replace ([START_BYTE; ty; Z.of_nat (length pl)] ++ pl ++ [c; STOP_BYTE])
      with (([START_BYTE; ty; Z.of_nat (length pl)] ++ pl ++ [c]) ++ [STOP_BYTE])
      by (by rewrite <- !app_assoc).
    rewrite rx_interrupts_app.
    rewrite (rx_interrupts_quiet _ _ _ _ _ _ _ _ Hps Hh
               (feed_frame_body fuel w hzettarx ty pl c Hg Hst Hmax Hlen)
               (replicate_no_OK _)).
    cbn [bind rx_interrupts]. unfold HAL_UART_RxCpltCallback.
    rewrite ParseByte_GET_STOP_hit by done. cbv zeta.
    rewrite compute_crc_frame_body by done. cbv zeta. cbn [bind].
    fold c. rewrite Z.eqb_refl. cbn [bind].
    fold (frame_received ty pl c hzettarx).
    rewrite decide_True by done.
    destruct (Zetta_GetPayload _ _) as [m| |]; [|done|done].
    cbn [bind]. by rewrite recieve_cplt_clb_ready by exact Hps. }
  destruct (frame_received_fields ty pl c hzettarx)
    as (_ & Hl & Hp & _ & Hrdy & _).
  destruct (frame_received_keeps ty pl c hzettarx) as (_ & _ & _ & Hplen).
  cbv zeta in *. unfold Zetta_GetPayload. rewrite Hrdy, Hl, Nat2Z.id.
  cbn [Z.eqb negb]. split; intros Hsize.
  - rewrite memcpy_Ret by lia. cbn [bind take app Nat.add]. by rewrite Hp.
  - unfold memcpy. by rewrite bool_decide_eq_false_2 by lia.
Qed.

Lemma rx_interrupt_copies_payload_witness :
  rx_interrupts 1 empty_world (zetta_init blank (iface xor_crc))
      (replicate 13 0xEE) [0xAA; 1; 2; 1; 2; 0; 0xBC]
    = Ret (set_dbg_crc_val 0 empty_world,
           frame_received 1 [1; 2] 0 (zetta_init blank (iface xor_crc)),
           [1; 2] ++ replicate 11 0xEE)
  ∧ rx_interrupts 1 empty_world (zetta_init blank (iface xor_crc))
      (replicate 13 0xEE)
      (wire_frame 1 (replicate 14 0) (frame_crc xor_crc 1 (replicate 14 0)))
    = Undefined.
Proof.
  split.
  - apply (proj1 (rx_interrupt_copies_payload 0 empty_world
                    (zetta_init blank (iface xor_crc)) (replicate 13 0xEE)
                    MSG_PUBLISH [1; 2] eq_refl eq_refl eq_refl
                    ltac:(by compute) ltac:(simpl; lia) eq_refl)).
    vm_compute; lia.
  - apply (proj2 (rx_interrupt_copies_payload 0 empty_world
                    (zetta_init blank (iface xor_crc)) (replicate 13 0xEE)
                    MSG_PUBLISH (replicate 14 0) eq_refl eq_refl eq_refl
                    ltac:(by compute) ltac:(simpl; lia) eq_refl)).
    vm_compute; lia.
Defined.

(** ** What the library never touches *)

Lemma run_call_keeps_interface fuel w packet c w' packet' r :
  invariant packet → well_typed c →
  run_call fuel w packet c = Ret (w', packet', r) →
  interface packet' = interface packet.
Proof.
  intros Hinv Hty Hrun. pose proof Hinv as (Hh & _).
  destruct c as [ty pData n|byte| |]; simpl in Hty, Hrun.
  - destruct Hty as [_ Hn]. unfold is_byte in Hn.
    assert (0 ≤ n) as Hn0 by lia.
    destruct (send_Ret_inv _ _ _ _ _ _ _ _ _ Hn0 Hrun)
      as [_ [(_ & Hc & _)|(_ & _ & _ & _ & -> & _)]]; [|done].
    by apply call_OnError_inv in Hc as [_ ->].
  - by destruct (ParseByte_keeps_gate _ _ _ _ _ _ _ Hh Hrun).
  - by injection Hrun as <- <- <-.
  - by injection Hrun as <- <- <-.
Qed.

(** From [zetta_init] on, no call of the library changes the interface
    record or closes the receive gate: in every state an instance reaches,
    the completion callbacks and the error handler are the library's own,
    the gate field is not RX_BUSY, and a further call leaves the transport
    and checksum bindings as the application gave them. *)
Theorem library_keeps_interface_and_rx_gate w packet :
  reachable w packet →
  rxCpltClbk (interface packet) = Clbk_zetta_recieve_cplt_clb
  ∧ txCpltClbk (interface packet) = Clbk_zetta_transmit_cplt_clb
  ∧ OnError (interface packet) = OnError_zetta_error_manager
  ∧ pstate (_internal packet) ≠ ZETTA_STATE_RX_BUSY
  ∧ ∀ fuel c w' packet' r,
      well_typed c →
      run_call fuel w packet c = Ret (w', packet', r) →
      interface packet' = interface packet
      ∧ pstate (_internal packet') ≠ ZETTA_STATE_RX_BUSY.
Proof.
  intros Hreach.
  assert (rxCpltClbk (interface packet) = Clbk_zetta_recieve_cplt_clb
          ∧ txCpltClbk (interface packet) = Clbk_zetta_transmit_cplt_clb)
    as [Hrx Htx].
  { induction Hreach as [w packet itf|w packet fuel c w' packet' r Hreach IH Hty Hrun];
      [done|].
    by rewrite (run_call_keeps_interface _ _ _ _ _ _ _
                  (reachable_invariant _ _ Hreach) Hty Hrun). }
  pose proof (reachable_invariant _ _ Hreach) as Hinv.
  pose proof Hinv as (Hh & _ & _ & Hg & _).
  repeat (split; [done|]).
  intros fuel c w' packet' r Hty Hrun. split.
  - by eapply run_call_keeps_interface.
  - assert (reachable w' packet') as Hreach' by (by eapply reach_call).
    by destruct (reachable_invariant _ _ Hreach') as (_ & _ & _ & Hg' & _).
Qed.

Lemma library_keeps_interface_and_rx_gate_witness :
  reachable empty_world get_len_instance
  ∧ OnError (interface get_len_instance) = OnError_zetta_error_manager
  ∧ pstate (_internal get_len_instance) ≠ ZETTA_STATE_RX_BUSY.
Proof.
  assert (reachable empty_world get_len_instance) as Hreach.
  { apply (reach_call empty_world get_type_instance 1
             (call_ParseByte MSG_PUBLISH) _ _ ZETTA_ERROR);
      [|by compute|reflexivity].
    apply (reach_call empty_world (zetta_init blank (iface xor_crc)) 1
             (call_ParseByte START_BYTE) _ _ ZETTA_ERROR);
      [|by compute|reflexivity].
    apply reach_init. }
  split; [exact Hreach|].
  destruct (library_keeps_interface_and_rx_gate _ _ Hreach)
    as (_ & _ & Hh & Hg & _).
  by split.
Defined.

(** ** Sends in a row *)

(** After a send that returned ZETTA_OK the transmit gate is closed: a
    further send on the instance spins until the transmit-complete callback
    has run.  Once it has, the next send of at most MAX_PAYLOAD_SIZE bytes
    goes out: the call log holds the two transport calls in order, and the
    30-byte transmit buffer holds the second frame followed by zeroes, with
    nothing left of the first. *)
Theorem send_again_after_completion fuel w packet ty pData n w1 p1 ty2 pData2 n2 :
  0 ≤ n →
  zetta_send fuel w packet ty pData n = Ret (w1, p1, ZETTA_OK) →
  length (payload (frame (_internal packet))) = Z.to_nat MAX_PAYLOAD_SIZE →
  length (tx_buf w) = Z.to_nat MAX_ZETTA_FRAME_SIZE →
  0 ≤ n2 ≤ MAX_PAYLOAD_SIZE →
  (Z.to_nat n2 ≤ length pData2)%nat →
  (∀ fuel2, zetta_send fuel2 w1 p1 ty2 pData2 n2 = Spin)
  ∧ ∃ w2 p2,
      (∀ fuel2, zetta_send (S fuel2) w1 (zetta_transmit_cplt_clb p1)
                  ty2 pData2 n2 = Ret (w2, p2, ZETTA_OK))
      ∧ calls w2 = calls w
                   ++ [EvSend (send (interface packet)) (tx_buf w1) (n + 5);
                       EvSend (send (interface packet)) (tx_buf w2) (n2 + 5)]
      ∧ take (Z.to_nat (n2 + 5)) (tx_buf w2) =
          [START_BYTE; ty2; n2] ++ take (Z.to_nat n2) pData2
          ++ [wrap8 (wrap32 (computeCRC (interface packet)
                               (ty2 :: n2 :: take (Z.to_nat n2) pData2)));
              STOP_BYTE]
      ∧ drop (Z.to_nat (n2 + 5)) (tx_buf w2) = replicate (25 - Z.to_nat n2) 0.
Proof.
  intros Hn Hr Hpl Hbuf Hn2 Hdata2.
  destruct (send_Ret_inv _ _ _ _ _ _ _ _ _ Hn Hr)
    as [Hg [(_ & _ & [=])|(Hmax & Hdata & _ & -> & -> & _)]].
  unfold MAX_PAYLOAD_SIZE in *.
  set (pl := take (Z.to_nat n) pData) in *.
  assert (length pl = Z.to_nat n) as Hlen
    by (unfold pl; rewrite length_take; lia).
  set (v := frame_crc (computeCRC (interface packet)) ty pl).
  split; [intros fuel2; by apply send_spin|].
  destruct (send_layout 0 (world_after_send w (send (interface packet)) ty pl v)
              (zetta_transmit_cplt_clb (instance_after_send ty pl v packet))
              ty2 pData2 n2)
    as (w2 & p2 & Hs & Hc & _ & Ht & Hd & _); try done.
  - unfold instance_after_send. fields. rewrite length_app, length_drop. lia.
  - unfold world_after_send. fields.
    rewrite !length_app, length_wire_frame, length_replicate, length_drop, Hbuf.
    change (Z.to_nat _) with 30%nat. lia.
  - exists w2, p2. split; [|split; [|by split]].
    + intros fuel2. by rewrite send_fuel.
    + rewrite Hc. unfold world_after_send. fields. rewrite <- app_assoc.
      replace (Z.of_nat (length pl) + 5) with (n + 5) by lia. done.
Qed.

Lemma send_again_after_completion_witness :
  ∃ w1 p1 w2 p2,
    zetta_send 1 empty_world (zetta_init blank (iface xor_crc)) MSG_PUBLISH
               [1; 2; 3; 4; 5] 5 = Ret (w1, p1, ZETTA_OK)
    ∧ zetta_send 3 w1 p1 MSG_SUBSCRIBE [9] 1 = Spin
    ∧ zetta_send 1 w1 (zetta_transmit_cplt_clb p1) MSG_SUBSCRIBE [9] 1
      = Ret (w2, p2, ZETTA_OK)
    ∧ take 6 (tx_buf w2) = [0xAA; 2; 1; 9; 0x0A; 0xBC]
    ∧ drop 6 (tx_buf w2) = replicate 24 0.
Proof.
  assert (∃ w1 p1,
            zetta_send 1 empty_world (zetta_init blank (iface xor_crc))
              MSG_PUBLISH [1; 2; 3; 4; 5] 5 = Ret (w1, p1, ZETTA_OK))
    as (w1 & p1 & Hs) by (eexists _, _; vm_compute; reflexivity).
  destruct (send_again_after_completion 1 empty_world
              (zetta_init blank (iface xor_crc)) MSG_PUBLISH [1; 2; 3; 4; 5] 5
              w1 p1 MSG_SUBSCRIBE [9] 1)
    as (Hspin & w2 & p2 & H2 & _ & Ht & Hd);
    [lia|exact Hs|reflexivity|reflexivity|by compute|simpl; lia|].
  exists w1, p1, w2, p2.
  split; [exact Hs|]. split; [apply Hspin|]. split; [apply H2|].
  split; [exact Ht|exact Hd].
Defined.

(** ** Reading the payload *)

Lemma feed_bytes_reachable fuel bytes : ∀ w packet w' packet' rs,
  reachable w packet → Forall is_byte bytes →
  feed_bytes fuel w packet bytes = Ret (w', packet', rs) →
  reachable w' packet'.
Proof.
  induction bytes as [|b bytes IH]; intros w packet w' packet' rs Hreach Hall.
  - by intros [= <- <- _].
  - apply Forall_cons in Hall as [Hb Hall]. rewrite feed_bytes_cons.
    intros ([[w1 p1] r] & Hp & Hk)%bind_Ret.
    apply bind_Ret in Hk as ([[w2 p2] rs2] & Hf & [= <- <- _]).
    apply (IH w1 p1 w2 p2 rs2); [|done|done].
    by apply (reach_call w packet fuel (call_ParseByte b) w1 p1 r).
Qed.

(** A destination of MAX_PAYLOAD_SIZE bytes is always enough: in every state
    an instance reaches from [zetta_init], [Zetta_GetPayload] on a buffer of
    at least 25 bytes stays inside it, keeps its length, and changes at most
    its first stored-length bytes. *)
Theorem GetPayload_fits_max_buffer w packet pDest :
  reachable w packet →
  (Z.to_nat MAX_PAYLOAD_SIZE ≤ length pDest)%nat →
  ∃ pDest',
    Zetta_GetPayload packet pDest = Ret pDest'
    ∧ length pDest' = length pDest
    ∧ drop (Z.to_nat (len (frame (_internal packet)))) pDest'
      = drop (Z.to_nat (len (frame (_internal packet)))) pDest.
Proof.
  intros (_ & Hpl & Hlen & _)%reachable_invariant Hdest.
  unfold MAX_PAYLOAD_SIZE in *. unfold Zetta_GetPayload.
  destruct (negb _); [|by exists pDest].
  rewrite memcpy_Ret by lia. cbn [take app Nat.add].
  eexists. split; [reflexivity|].
  assert (length (take (Z.to_nat (len (frame (_internal packet))))
                    (payload (frame (_internal packet))))
          = Z.to_nat (len (frame (_internal packet)))) as Ht
    by (rewrite length_take; lia).
  rewrite take_0. cbn [app]. split.
  - rewrite length_app, length_drop, Ht. lia.
  - by rewrite drop_app_length'.
Qed.

Lemma GetPayload_fits_max_buffer_witness :
  ∃ w packet,
    feed_bytes 1 empty_world (zetta_init blank (iface xor_crc)) intact_frame
      = Ret (w, packet, replicate 6 ZETTA_ERROR ++ [ZETTA_OK])
    ∧ ∃ pDest',
        Zetta_GetPayload packet (replicate 25 0xEE) = Ret pDest'
        ∧ length pDest' = 25%nat.
Proof.
  assert (∃ w packet,
            feed_bytes 1 empty_world (zetta_init blank (iface xor_crc))
              intact_frame
            = Ret (w, packet, replicate 6 ZETTA_ERROR ++ [ZETTA_OK])
            ∧ reachable w packet) as (w & packet & Hf & Hreach).
  { assert (∃ w packet,
              feed_bytes 1 empty_world (zetta_init blank (iface xor_crc))
                intact_frame
              = Ret (w, packet, replicate 6 ZETTA_ERROR ++ [ZETTA_OK]))
      as (w & packet & Hf) by (eexists _, _; vm_compute; reflexivity).
    exists w, packet. split; [exact Hf|].
    assert (Forall is_byte intact_frame) as Hall
      by (unfold intact_frame, is_byte; repeat (constructor; [lia|]);
          constructor).
    exact (feed_bytes_reachable 1 intact_frame _ _ _ _ _
             (reach_init empty_world blank (iface xor_crc)) Hall Hf). }
  exists w, packet. split; [exact Hf|].
  destruct (GetPayload_fits_max_buffer w packet (replicate 25 0xEE) Hreach)
    as (d & Hd & Hl & _); [vm_compute; lia|].
  exists d. by split.
Defined.

(** ** Receive errors: dispatch, reset and what follows *)

(** With the library's error handler installed and the receive gate open,
    every receive error is reported in the call that detects it and resets
    the machine.  A byte other than the start byte in WAIT_START is an
    invalid start; a length byte above MAX_PAYLOAD_SIZE in GET_LEN is a
    payload too large; in GET_STOP the stop byte over a stored checksum byte
    that differs from the checksum value of the stored type, length and
    payload is a checksum mismatch, and any other byte is an invalid stop; a
    receive state that is none of the six enumerators is a frame error.  In
    each case the call stores the error, hands it to the handler, returns
    ZETTA_ERROR and leaves the machine in WAIT_START.  A returning call that
    adds to the call log or changes the stored error has reported one of
    these five errors in that way. *)
Theorem rx_errors_dispatched_and_reset fuel w packet byte :
  OnError (interface packet) = OnError_zetta_error_manager →
  pstate (_internal packet) ≠ ZETTA_STATE_RX_BUSY →
  let i := _internal packet in
  let res := zetta_ParseByte (S fuel) w packet byte in
  (rx_frame_state i = STATE_RX_WAIT_START → byte ≠ START_BYTE →
   rx_error_reported res w ZETTA_ERROR_INVALID_START)
  ∧ (rx_frame_state i = STATE_RX_GET_LEN → byte > MAX_PAYLOAD_SIZE →
     rx_error_reported res w ZETTA_ERROR_PAYLOAD_TOO_LARGE)
  ∧ (rx_frame_state i = STATE_RX_GET_STOP → byte = STOP_BYTE →
     0 ≤ len (frame i) ≤ MAX_PAYLOAD_SIZE →
     (Z.to_nat (len (frame i)) ≤ length (payload (frame i)))%nat →
     wrap32 (computeCRC (interface packet)
               (type (frame i) :: len (frame i)
                :: take (Z.to_nat (len (frame i))) (payload (frame i))))
       ≠ crc (frame i) →
     rx_error_reported res w ZETTA_ERROR_CRC_MISMATCH)
  ∧ (rx_frame_state i = STATE_RX_GET_STOP → byte ≠ STOP_BYTE →
     rx_error_reported res w ZETTA_ERROR_INVALID_STOP)
  ∧ (rx_frame_state i < STATE_RX_WAIT_START
     ∨ STATE_RX_GET_STOP < rx_frame_state i →
     rx_error_reported res w ZETTA_FRAME_ERROR)
  ∧ (∀ w' packet' r,
       res = Ret (w', packet', r) →
       calls w' ≠ calls w ∨ error (_internal packet') ≠ error i →
       ∃ e, rx_error_reported res w e
            ∧ In e [ZETTA_ERROR_INVALID_START; ZETTA_ERROR_PAYLOAD_TOO_LARGE;
                    ZETTA_ERROR_CRC_MISMATCH; ZETTA_ERROR_INVALID_STOP;
                    ZETTA_FRAME_ERROR]).
Proof.
  intros Hh Hg i res. subst i res. unfold rx_error_reported.
  split; [|split; [|split; [|split; [|split]]]].
  - intros Hst Hb. rewrite ParseByte_WAIT_START_miss by done.
    rewrite call_OnError_default by done. cbn [bind].
    eexists _, _. split; [reflexivity|]. by fields.
  - intros Hst Hb. rewrite ParseByte_GET_LEN_too_large by done.
    rewrite call_OnError_default by done. cbn [bind].
    eexists _, _. split; [reflexivity|]. by fields.
  - intros Hst Hb Hlen Hpl Hne.
    rewrite ParseByte_GET_STOP_hit by done. cbv zeta.
    rewrite compute_crc_span by (fields; done). cbv zeta. cbn [bind]. fields.
    rewrite (proj2 (Z.eqb_neq _ _)) by done.
    rewrite call_OnError_default by done. cbn [bind].
    eexists _, _. split; [reflexivity|]. by fields.
  - intros Hst Hb. rewrite ParseByte_GET_STOP_miss by done.
    rewrite call_OnError_default by done. cbn [bind].
    eexists _, _. split; [reflexivity|]. by fields.
  - intros Hst. rewrite ParseByte_default by done.
    rewrite call_OnError_default by done. cbn [bind].
    eexists _, _. split; [reflexivity|]. by fields.
  - intros w' packet' r Hr Hchg.
    destruct (ParseByte_error_or_not _ _ _ _ _ _ _ Hh Hr)
      as [[Hc He]|(e & Hin & Hc & He & -> & Hst & _)].
    + by destruct Hchg.
    + exists e. split; [|done]. by exists w', packet'.
Qed.

Lemma rx_errors_dispatched_and_reset_witness :
  rx_error_reported
    (zetta_ParseByte 1 empty_world (zetta_init blank (iface xor_crc)) 0x55)
    empty_world ZETTA_ERROR_INVALID_START
  ∧ rx_error_reported (zetta_ParseByte 1 empty_world get_len_instance 26)
      empty_world ZETTA_ERROR_PAYLOAD_TOO_LARGE
  ∧ feed_bytes 1 empty_world (zetta_init blank (iface xor_crc))
      [0xAA; 1; 2; 1; 2; 9]
    = Ret (empty_world, get_stop_instance, replicate 6 ZETTA_ERROR)
  ∧ rx_error_reported (zetta_ParseByte 1 empty_world get_stop_instance 0xBC)
      empty_world ZETTA_ERROR_CRC_MISMATCH
  ∧ rx_error_reported (zetta_ParseByte 1 empty_world get_stop_instance 0xBD)
      empty_world ZETTA_ERROR_INVALID_STOP
  ∧ rx_error_reported (zetta_ParseByte 1 empty_world stray_state_instance 0xAA)
      empty_world ZETTA_FRAME_ERROR.
Proof.
  split.
  { apply (rx_errors_dispatched_and_reset 0 empty_world
             (zetta_init blank (iface xor_crc)) 0x55);
      [reflexivity|discriminate|reflexivity|discriminate]. }
  split.
  { apply (rx_errors_dispatched_and_reset 0 empty_world get_len_instance 26);
      [reflexivity|discriminate|reflexivity|reflexivity]. }
  split; [vm_compute; reflexivity|].
  split.
  { apply (rx_errors_dispatched_and_reset 0 empty_world get_stop_instance 0xBC);
      [reflexivity|discriminate|reflexivity|reflexivity
      |vm_compute; split; discriminate|vm_compute; lia|vm_compute; discriminate]. }
  split.
  { apply (rx_errors_dispatched_and_reset 0 empty_world get_stop_instance 0xBD);
      [reflexivity|discriminate|reflexivity|discriminate]. }
  apply (rx_errors_dispatched_and_reset 0 empty_world stray_state_instance 0xAA);
    [reflexivity|discriminate|right; reflexivity].
Defined.

(** Reception after a receive error.  With the library's error handler
    installed, take a [zetta_ParseByte] call that returned after reporting an
    error, and then feed the instance the frame [zetta_send] puts on the wire
    for a type and a payload of at most MAX_PAYLOAD_SIZE bytes: start byte,
    type, length, payload, the checksum value truncated to a byte, stop
    byte.  Every call returns and the machine ends in WAIT_START with that
    type, length and payload stored.  When the checksum value is below 256
    the frame is received: the last call returns ZETTA_OK, nothing is
    reported and the payload-ready flag is set.  When it is 256 or more the
    frame is dropped: every call returns ZETTA_ERROR, the last one after
    reporting a checksum mismatch, and the payload-ready flag is what it was
    before the erroring call. *)
Theorem reception_after_rx_error fuel w packet byte w' packet' r fuel' ty pl :
  OnError (interface packet) = OnError_zetta_error_manager →
  zetta_ParseByte fuel w packet byte = Ret (w', packet', r) →
  calls w' ≠ calls w →
  Z.of_nat (length pl) ≤ MAX_PAYLOAD_SIZE →
  (length pl ≤ length (payload (frame (_internal packet))))%nat →
  let v := frame_crc (computeCRC (interface packet)) ty pl in
  ∃ w'' packet'',
    feed_bytes (S fuel') w' packet' (wire_frame ty pl (wrap8 v)) =
      Ret (w'', packet'',
           if v <? 256
           then replicate (4 + length pl) ZETTA_ERROR ++ [ZETTA_OK]
           else replicate (5 + length pl) ZETTA_ERROR)
    ∧ calls w'' = (if v <? 256 then calls w'
                   else calls w' ++ [EvOnError ZETTA_ERROR_CRC_MISMATCH])
    ∧ rx_frame_state (_internal packet'') = STATE_RX_WAIT_START
    ∧ type (frame (_internal packet'')) = ty
    ∧ len (frame (_internal packet'')) = Z.of_nat (length pl)
    ∧ take (length pl) (payload (frame (_internal packet''))) = pl
    ∧ payload_ready (_internal packet'') =
        (if v <? 256 then 1 else payload_ready (_internal packet)).
Proof.
  intros Hh Hr Hchg Hmax Hlen v.
  destruct (ParseByte_Ret_gate _ _ _ _ _ Hr) as [Hg _].
  destruct (ParseByte_error_or_not _ _ _ _ _ _ _ Hh Hr)
    as [[Hquiet _]|(e & _ & _ & _ & _ & Hst & _ & _ & Hpl & Hrdy & Hps & Hitf)];
    [done|].
  assert (frame_crc (computeCRC (interface packet')) ty pl = v) as Hv
    by (by rewrite Hitf).
  assert (0 ≤ v < 2 ^ 32) as Hrange
    by (unfold v, frame_crc, wrap32; apply Z.mod_pos_bound; lia).
  destruct (Z.ltb_spec v 256) as [Hsmall|Hwide].
  - rewrite wrap8_small by lia.
    eexists _, _. split.
    + apply feed_frame_accept; [by rewrite Hps|done|done|by rewrite Hpl|done].
    + destruct (frame_received_fields ty pl v packet')
        as (Hty & Hl & Hp & _ & Hr1 & Hs1).
      by repeat split.
  - eexists _, _. split.
    + apply feed_frame_reject;
        [by rewrite Hps|done|by rewrite Hitf|done|by rewrite Hpl|].
      rewrite Hv. pose proof (Z.mod_pos_bound v (2 ^ 8)). unfold wrap8. lia.
    + rewrite Hv. unfold frame_rejected, frame_body_received. fields.
      rewrite take_app_length. by repeat split.
Qed.

Lemma reception_after_rx_error_witness :
  zetta_ParseByte 1 empty_world (zetta_init blank (iface xor_crc)) 0x55 =
    Ret (log (EvOnError ZETTA_ERROR_INVALID_START) empty_world,
         upd (set_error ZETTA_ERROR_INVALID_START)
           (zetta_init blank (iface xor_crc)),
         ZETTA_ERROR)
  ∧ wire_frame 1 [0x10; 0x20] (wrap8 (frame_crc xor_crc 1 [0x10; 0x20]))
    = [0xAA; 1; 2; 0x10; 0x20; 0x33; 0xBC]
  ∧ ∃ w'' packet'',
      feed_bytes 1 (log (EvOnError ZETTA_ERROR_INVALID_START) empty_world)
        (upd (set_error ZETTA_ERROR_INVALID_START)
           (zetta_init blank (iface xor_crc)))
        [0xAA; 1; 2; 0x10; 0x20; 0x33; 0xBC] =
        Ret (w'', packet'', replicate 6 ZETTA_ERROR ++ [ZETTA_OK])
      ∧ calls w'' = [EvOnError ZETTA_ERROR_INVALID_START]
      ∧ type (frame (_internal packet'')) = 1
      ∧ take 2 (payload (frame (_internal packet''))) = [0x10; 0x20]
      ∧ payload_ready (_internal packet'') = 1.
Proof.
  assert (zetta_ParseByte 1 empty_world (zetta_init blank (iface xor_crc)) 0x55 =
            Ret (log (EvOnError ZETTA_ERROR_INVALID_START) empty_world,
                 upd (set_error ZETTA_ERROR_INVALID_START)
                   (zetta_init blank (iface xor_crc)),
                 ZETTA_ERROR)) as Hr by reflexivity.
  assert (OnError (interface (zetta_init blank (iface xor_crc)))
          = OnError_zetta_error_manager) as Hh by reflexivity.
  split; [exact Hr|]. split; [reflexivity|].
  destruct (reception_after_rx_error _ _ _ _ _ _ _ 0%nat 1 [0x10; 0x20]
              Hh Hr)
    as (w'' & p'' & Hfeed & Hcalls & _ & Hty & _ & Hpl & Hrdy);
    [discriminate|by compute|simpl; lia|].
  by exists w'', p''.
Defined.
